(** * Portfolio backend (backend/app.py): mock inference pipeline, admin gate,
      health reporter.

    Shallow embedding of the Python module and proofs of its specification.

    Python values are embedded as the inductive [pyval]; [int] is unbounded
    ([Z]); [float] is IEEE-754 binary64, embedded with the Z-based
    [spec_float] of the standard library at precision 53 and maximal
    exponent 1024, so every operation computes inside Rocq.  A [dict] is an
    association list in insertion order, written through [dict_set] the way
    Python's dict assignment behaves.  Raising an exception is the [Raise]
    constructor of [result]. *)

From Stdlib Require Import ZArith NArith List String Ascii Bool Lia DecimalString FinFun.
From Stdlib Require Import Permutation.
From Stdlib Require Import Floats.SpecFloat Floats.PrimFloat Floats.FloatOps.
Import ListNotations.

Set Warnings "-register-all".

Local Open Scope string_scope.
Local Open Scope list_scope.
Local Open Scope Z_scope.

(** ** Exceptions and the error monad *)

Inductive pyexn : Type :=
| TypeError (msg : string)
| AttributeError (msg : string)
| ZeroDivisionError (msg : string)
| OverflowError (msg : string).

(** [str(e)] *)
Definition exn_str (e : pyexn) : string :=
  match e with
  | TypeError m | AttributeError m | ZeroDivisionError m | OverflowError m => m
  end.

Inductive result (A : Type) : Type :=
| Ok (a : A)
| Raise (e : pyexn).
Arguments Ok {A} a.
Arguments Raise {A} e.

Definition bind {A B : Type} (r : result A) (k : A -> result B) : result B :=
  match r with
  | Ok a => k a
  | Raise e => Raise e
  end.

Notation "x <- r ;; k" := (bind r (fun x => k))
  (at level 61, r at next level, right associativity).

(** ** binary64 *)

Definition float : Type := spec_float.

Definition f_add : float -> float -> float := SFadd prec emax.
Definition f_mul : float -> float -> float := SFmul prec emax.
Definition f_div : float -> float -> float := SFdiv prec emax.

Definition f_is_zero (f : float) : bool :=
  match f with S754_zero _ => true | _ => false end.

Definition f_is_inf (f : float) : bool :=
  match f with S754_infinity _ => true | _ => false end.

(** The float literal [0.5] = 2^52 * 2^-53. *)
Definition f_half : float := S754_finite false 4503599627370496 (-53).

(** An integer as an unrounded dyadic number (exponent 0). *)
Definition f_exact (z : Z) : float :=
  match z with
  | Z0 => S754_zero false
  | Zpos p => S754_finite false p 0
  | Zneg p => S754_finite true p 0
  end.

Definition overflow_msg : string := "int too large to convert to float".

(** [float(z)] for an int [z]: round to nearest even; an int that rounds
    past the largest finite float raises OverflowError. *)
Definition int_to_float (z : Z) : result float :=
  let f := binary_normalize prec emax z 0 false in
  if f_is_inf f then Raise (OverflowError overflow_msg)
  else Ok f.

(** [a / b] on two ints: the correctly rounded quotient of the exact
    operands. *)
Definition int_truediv (a b : Z) : result float :=
  if b =? 0 then Raise (ZeroDivisionError "division by zero")
  else if a =? 0 then Ok (S754_zero (b <? 0))
  else
    let q := f_div (f_exact a) (f_exact b) in
    if f_is_inf q
    then Raise (OverflowError "integer division result too large for a float")
    else Ok q.

(** [x / y] on two floats. *)
Definition float_truediv (x y : float) : result float :=
  if f_is_zero y then Raise (ZeroDivisionError "float division by zero")
  else Ok (f_div x y).

(** ** Python values *)

Inductive pyval : Type :=
| PNone
| PBool (b : bool)
| PInt (z : Z)
| PFloat (f : float)
| PStr (s : string)
| PList (l : list pyval)
| PDict (d : list (string * pyval)).

Definition dict : Type := list (string * pyval).

(** [isinstance(v, (int, float))]; [bool] is a subclass of [int]. *)
Definition isinstance_int_float (v : pyval) : bool :=
  match v with
  | PBool _ | PInt _ | PFloat _ => true
  | _ => false
  end.

(** The integer an int-like value ([int] or [bool]) stands for. *)
Definition as_int (v : pyval) : option Z :=
  match v with
  | PInt z => Some z
  | PBool b => Some (Z.b2z b)
  | _ => None
  end.

Definition unsupported (op : string) : pyexn :=
  TypeError ("unsupported operand type(s) for " ++ op)%string.

(** [s * n] on a sequence: [n] copies, none when [n <= 0]. *)
Fixpoint str_repeat (s : string) (n : nat) : string :=
  match n with
  | O => EmptyString
  | S k => (s ++ str_repeat s k)%string
  end.

Fixpoint list_repeat {A : Type} (l : list A) (n : nat) : list A :=
  match n with
  | O => []
  | S k => l ++ list_repeat l k
  end.

(** [x + y]: numbers add, with an int converted when the other operand is
    a float; two strings or two lists concatenate. *)
Definition py_add (x y : pyval) : result pyval :=
  match as_int x, as_int y with
  | Some a, Some b => Ok (PInt (a + b))
  | Some a, None =>
      match y with
      | PFloat g => f <- int_to_float a ;; Ok (PFloat (f_add f g))
      | _ => Raise (unsupported "+")
      end
  | None, Some b =>
      match x with
      | PFloat f => g <- int_to_float b ;; Ok (PFloat (f_add f g))
      | _ => Raise (unsupported "+")
      end
  | None, None =>
      match x, y with
      | PFloat f, PFloat g => Ok (PFloat (f_add f g))
      | PStr s, PStr t => Ok (PStr (s ++ t))
      | PList l, PList m => Ok (PList (l ++ m))
      | _, _ => Raise (unsupported "+")
      end
  end.

(** [x * y]: numbers multiply, with an int converted when the other operand
    is a float; a string or a list times an int repeats. *)
Definition py_mul (x y : pyval) : result pyval :=
  match as_int x, as_int y with
  | Some a, Some b => Ok (PInt (a * b))
  | Some a, None =>
      match y with
      | PFloat g => f <- int_to_float a ;; Ok (PFloat (f_mul f g))
      | PStr s => Ok (PStr (str_repeat s (Z.to_nat a)))
      | PList l => Ok (PList (list_repeat l (Z.to_nat a)))
      | _ => Raise (unsupported "*")
      end
  | None, Some b =>
      match x with
      | PFloat f => g <- int_to_float b ;; Ok (PFloat (f_mul f g))
      | PStr s => Ok (PStr (str_repeat s (Z.to_nat b)))
      | PList l => Ok (PList (list_repeat l (Z.to_nat b)))
      | _ => Raise (unsupported "*")
      end
  | None, None =>
      match x, y with
      | PFloat f, PFloat g => Ok (PFloat (f_mul f g))
      | _, _ => Raise (unsupported "*")
      end
  end.

(** [x / y], true division: defined on numbers only, the result is always
    a float. *)
Definition py_truediv (x y : pyval) : result float :=
  match as_int x, as_int y with
  | Some a, Some b => int_truediv a b
  | Some a, None =>
      match y with
      | PFloat g => f <- int_to_float a ;; float_truediv f g
      | _ => Raise (unsupported "/")
      end
  | None, Some b =>
      match x with
      | PFloat f => g <- int_to_float b ;; float_truediv f g
      | _ => Raise (unsupported "/")
      end
  | None, None =>
      match x, y with
      | PFloat f, PFloat g => float_truediv f g
      | _, _ => Raise (unsupported "/")
      end
  end.


(** ** dict *)

(** [d[k] = v]: an existing key keeps its place, a new key goes last. *)
Fixpoint dict_set (d : dict) (k : string) (v : pyval) : dict :=
  match d with
  | [] => [(k, v)]
  | (k', v') :: rest =>
      if String.eqb k' k then (k', v) :: rest
      else (k', v') :: dict_set rest k v
  end.

(** [d.get(k)] *)
Fixpoint dict_get (d : dict) (k : string) : option pyval :=
  match d with
  | [] => None
  | (k', v') :: rest => if String.eqb k' k then Some v' else dict_get rest k
  end.

Definition keys (d : dict) : list string := map fst d.
Definition values (d : dict) : list pyval := map snd d.

(** A dict holds every key once. *)
Definition wf_dict (d : dict) : Prop := NoDup (keys d).

(** [len(l)] *)
Definition py_len {A : Type} (l : list A) : pyval := PInt (Z.of_nat (List.length l)).

(** [sum(vs)]: [0 + v1 + v2 + ...], left to right.  (CPython from 3.12 on
    adds a compensation term to a float total; the statements below that
    fix a value are about ints, whose sum is exact in every version.) *)
Fixpoint sum_from (acc : pyval) (vs : list pyval) : result pyval :=
  match vs with
  | [] => Ok acc
  | v :: rest => acc' <- py_add acc v ;; sum_from acc' rest
  end.

Definition py_sum (vs : list pyval) : result pyval := sum_from (PInt 0) vs.

(** ** Configuration *)

Definition PROJECT_NAME : string := "Portfolio Website with Blog".
Definition FAKE_ADMIN_TOKEN : string := "supersecretadmintoken".

(** ** The mock model and preprocessor *)

Module MockModel.

Inductive t : Type := new.

(** [[v for v in item.values() if isinstance(v, (int, float))]] *)
Definition numeric_values (item : dict) : list pyval :=
  filter isinstance_int_float (values item).

(** The body of the [for] loop: the score appended for [item]. *)
Definition score (item : pyval) : result float :=
  match item with
  | PDict d =>
      let numeric_values := numeric_values d in
      match numeric_values with
      | _ :: _ =>
          s <- py_sum numeric_values ;; py_truediv s (py_len numeric_values)
      | [] => Ok f_half
      end
  | _ => Ok f_half
  end.

(** The [for item in data] loop with its accumulator [predictions]. *)
Fixpoint predict_loop (data : list pyval) (predictions : list float)
  : result (list float) :=
  match data with
  | [] => Ok predictions
  | item :: rest =>
      p <- score item ;; predict_loop rest (predictions ++ [p])
  end.

Definition predict (self : t) (data : list pyval) : result (list float) :=
  predict_loop data [].

End MockModel.

Module MockPreprocessor.

Inductive t : Type := new.

(** [f"processed_{k}"] *)
Definition processed_key (k : string) : string := ("processed_" ++ k)%string.

(** [v * 10 if isinstance(v, (int, float)) else v] *)
Definition processed_value (v : pyval) : result pyval :=
  if isinstance_int_float v then py_mul v (PInt 10) else Ok v.

(** The dict comprehension over [item.items()], filling [acc]. *)
Fixpoint comprehension (items : list (string * pyval)) (acc : dict)
  : result dict :=
  match items with
  | [] => Ok acc
  | (k, v) :: rest =>
      v' <- processed_value v ;;
      comprehension rest (dict_set acc (processed_key k) v')
  end.

(** The body of the [for] loop: the item appended for [item]. *)
Definition processed_item (item : pyval) : result pyval :=
  match item with
  | PDict d => d' <- comprehension d [] ;; Ok (PDict d')
  | _ => Ok item
  end.

(** The [for item in data] loop with its accumulator [processed_data]. *)
Fixpoint preprocess_loop (data : list pyval) (processed_data : list pyval)
  : result (list pyval) :=
  match data with
  | [] => Ok processed_data
  | item :: rest =>
      i <- processed_item item ;;
      preprocess_loop rest (processed_data ++ [i])
  end.

Definition preprocess (self : t) (data : list pyval) : result (list pyval) :=
  preprocess_loop data [].

End MockPreprocessor.

Arguments MockPreprocessor.processed_key : simpl never.

(** ** HTTP *)

Record HTTPException : Type := {
  status_code : Z;
  detail : string;
  headers : list (string * string)
}.

(** What a route answers: the handler's return value (status 200) or the
    HTTPException it raised. *)
Inductive response (A : Type) : Type :=
| Returned (a : A)
| Failed (e : HTTPException).
Arguments Returned {A} a.
Arguments Failed {A} e.

Definition status_of {A : Type} (r : response A) : Z :=
  match r with
  | Returned _ => 200
  | Failed e => status_code e
  end.

Definition HTTP_401_UNAUTHORIZED : Z := 401.
Definition HTTP_403_FORBIDDEN : Z := 403.
Definition HTTP_422_UNPROCESSABLE_ENTITY : Z := 422.
Definition HTTP_500_INTERNAL_SERVER_ERROR : Z := 500.
Definition HTTP_503_SERVICE_UNAVAILABLE : Z := 503.

(** ** Startup: the module-level globals *)

Record app : Type := {
  AI_ENABLED : bool;
  ml_model : option MockModel.t;
  preprocessor : option MockPreprocessor.t
}.

(** The [if AI_ENABLED: try: ... except ...] block.  [configured] is the
    constant [AI_ENABLED] is first bound to; a constructor that raises is
    [None].  Either [except] clause clears the flag. *)
Definition initialize (configured : bool)
    (new_model : option MockModel.t)
    (new_preprocessor : option MockPreprocessor.t) : app :=
  if configured then
    match new_model with
    | Some m =>
        match new_preprocessor with
        | Some p =>
            {| AI_ENABLED := true; ml_model := Some m; preprocessor := Some p |}
        | None =>
            {| AI_ENABLED := false; ml_model := Some m; preprocessor := None |}
        end
    | None =>
        {| AI_ENABLED := false; ml_model := None; preprocessor := None |}
    end
  else {| AI_ENABLED := false; ml_model := None; preprocessor := None |}.

(** The module as written: [AI_ENABLED = True] and the mock constructors,
    which cannot raise. *)
Definition the_app : app :=
  initialize true (Some MockModel.new) (Some MockPreprocessor.new).

(** ** Pydantic models *)

Record PredictionInput : Type := { data : list dict }.

Record PredictionOutput : Type := {
  predictions : list float;
  status : string
}.

Record HealthCheckResponse : Type := {
  hc_status : string;
  hc_timestamp : string;
  hc_service : string
}.

(** The request-body check the framework derives from [PredictionInput]
    ([data: List[Dict[str, Any]]]): a JSON object whose [data] member is a
    list of objects. *)
Fixpoint all_dicts (l : list pyval) : option (list dict) :=
  match l with
  | [] => Some []
  | PDict d :: rest =>
      match all_dicts rest with
      | Some ds => Some (d :: ds)
      | None => None
      end
  | _ :: _ => None
  end.

Definition parse_PredictionInput (body : pyval) : option PredictionInput :=
  match body with
  | PDict b =>
      match dict_get b "data" with
      | Some (PList l) =>
          match all_dicts l with
          | Some ds => Some {| data := ds |}
          | None => None
          end
      | _ => None
      end
  | _ => None
  end.

(** ** AI routes *)

(** [predict], the handler registered when [AI_ENABLED] holds. *)
Definition predict (st : app) (input_data : PredictionInput)
  : response PredictionOutput :=
  match ml_model st, preprocessor st with
  | Some model, Some pre =>
      match
        processed_input <- MockPreprocessor.preprocess pre (map PDict (data input_data)) ;;
        MockModel.predict model processed_input
      with
      | Ok preds => Returned {| predictions := preds; status := "success" |}
      | Raise e =>
          Failed {| status_code := HTTP_500_INTERNAL_SERVER_ERROR;
                    detail := ("An error occurred during AI prediction: " ++ exn_str e)%string;
                    headers := [] |}
      end
  | _, _ =>
      Failed {| status_code := HTTP_503_SERVICE_UNAVAILABLE;
                detail := "AI models are not loaded or available.";
                headers := [] |}
  end.

(** [predict_disabled], the handler registered otherwise; it takes no body. *)
Definition predict_disabled : response PredictionOutput :=
  Failed {| status_code := HTTP_403_FORBIDDEN;
            detail := "AI features are disabled for this service.";
            headers := [] |}.

(** POST /predict: which handler the module registered, and the body check
    in front of the one that declares a body. *)
Definition post_predict (st : app) (body : pyval) : response PredictionOutput :=
  if AI_ENABLED st then
    match parse_PredictionInput body with
    | Some input_data => predict st input_data
    | None =>
        Failed {| status_code := HTTP_422_UNPROCESSABLE_ENTITY;
                  detail := "request body does not validate as PredictionInput";
                  headers := [] |}
    end
  else predict_disabled.

(** ** Requests and the admin gate *)

Definition lower_ascii (c : ascii) : ascii :=
  let n := nat_of_ascii c in
  if (Nat.leb 65 n && Nat.leb n 90)%bool then ascii_of_nat (n + 32) else c.

Fixpoint lower (s : string) : string :=
  match s with
  | EmptyString => EmptyString
  | String c rest => String (lower_ascii c) (lower rest)
  end.

Record Request : Type := {
  req_headers : list (string * string);
  req_query : list (string * string)
}.

(** [headers.get(key)]: header names compare without case; the first match
    is returned, [None] when there is none. *)
Fixpoint headers_get (hs : list (string * string)) (key : string)
  : option string :=
  match hs with
  | [] => None
  | (k, v) :: rest =>
      if String.eqb (lower k) (lower key) then Some v else headers_get rest key
  end.

(** The value of a query-string parameter, [None] when the request has
    none of that name. *)
Fixpoint query_get (qs : list (string * string)) (name : string)
  : option string :=
  match qs with
  | [] => None
  | (k, v) :: rest => if String.eqb k name then Some v else query_get rest name
  end.

(** What the parameter of a dependency can be bound to. *)
Inductive argument : Type :=
| ArgRequest (request : Request)
| ArgStr (s : string).

(** [lambda x: x.headers.get("X-Admin-Token")]: a request has headers, a
    string has no such attribute. *)
Definition token_lambda (x : argument) : result (option string) :=
  match x with
  | ArgRequest request => Ok (headers_get (req_headers request) "X-Admin-Token")
  | ArgStr _ => Raise (AttributeError "'str' object has no attribute 'headers'")
  end.

(** How the framework fills a parameter of a dependency, by its
    annotation: one annotated [Request] receives the request; one without
    annotation or default is a required query parameter of its name, and a
    request that lacks it is refused with 422 before any dependency runs. *)
Inductive annotation : Type :=
| Unannotated
| AnnotatedRequest.

Definition missing_query (name : string) : HTTPException :=
  {| status_code := HTTP_422_UNPROCESSABLE_ENTITY;
     detail := ("Field required: query." ++ name)%string;
     headers := [] |}.

Definition bind_parameter (a : annotation) (name : string) (request : Request)
  : response argument :=
  match a with
  | AnnotatedRequest => Returned (ArgRequest request)
  | Unannotated =>
      match query_get (req_query request) name with
      | Some s => Returned (ArgStr s)
      | None => Failed (missing_query name)
      end
  end.

(** An exception that is no HTTPException and escapes a dependency or a
    handler is answered with 500. *)
Definition internal_server_error : HTTPException :=
  {| status_code := HTTP_500_INTERNAL_SERVER_ERROR;
     detail := "Internal Server Error";
     headers := [] |}.

(** [Depends(lambda x: ...)]: bind [x], then call the lambda. *)
Definition solve_token (a : annotation) (request : Request)
  : response (option string) :=
  match bind_parameter a "x" request with
  | Returned x =>
      match token_lambda x with
      | Ok token => Returned token
      | Raise _ => Failed internal_server_error
      end
  | Failed e => Failed e
  end.

(** [not token] on an [Optional[str]]: [None] and the empty string are falsy. *)
Definition py_not (token : option string) : bool :=
  match token with
  | None => true
  | Some s => String.eqb s ""
  end.

(** [token != FAKE_ADMIN_TOKEN] *)
Definition token_ne (token : option string) (secret : string) : bool :=
  match token with
  | None => true
  | Some s => negb (String.eqb s secret)
  end.

Definition unauthorized : HTTPException :=
  {| status_code := HTTP_401_UNAUTHORIZED;
     detail := "Authentication failed: Invalid or missing admin token";
     headers := [("WWW-Authenticate", "Bearer")] |}.

Definition authenticate_admin (token : option string) : response bool :=
  if (py_not token || token_ne token FAKE_ADMIN_TOKEN)%bool
  then Failed unauthorized
  else Returned true.

(** Handlers run in some world [W] they may change; a route declared with
    [dependencies=[Depends(authenticate_admin)]] resolves the dependency
    first and calls the handler only when it returned. *)
Section Handlers.

Variable W : Type.

Definition handler (A : Type) : Type := Request -> W -> response A * W.

(** The gate, for either annotation of the lambda's [x]. *)
Definition admin_gate {A : Type} (a : annotation) (h : handler A) : handler A :=
  fun request w =>
    match solve_token a request with
    | Returned token =>
        match authenticate_admin token with
        | Returned _ => h request w
        | Failed e => (Failed e, w)
        end
    | Failed e => (Failed e, w)
    end.

(** The module as written: the lambda's [x] carries no annotation. *)
Definition depends_authenticate_admin {A : Type} (h : handler A) : handler A :=
  admin_gate Unannotated h.

(** A handler whose body only builds its answer. *)
Definition pure_handler {A : Type} (body : A) : handler A :=
  fun _ w => (Returned body, w).

End Handlers.
Arguments admin_gate {W A} a h.
Arguments depends_authenticate_admin {W A} h.
Arguments pure_handler {W A} body.

Definition admin_dashboard_body : dict :=
  [("message", PStr "Welcome to the Admin Dashboard!");
   ("page", PStr "Admin Dashboard");
   ("status", PStr "authenticated")].

Definition admin_posts_body : dict :=
  [("message", PStr "Manage your blog posts here.");
   ("page", PStr "Admin Posts");
   ("posts_count", PInt 5)].

(** Decimal digits of a non-negative integer, as [str(n)] prints them. *)
Definition str_of_N (n : N) : string := NilZero.string_of_uint (N.to_uint n).

Definition str_of_Z (z : Z) : string :=
  match z with
  | Zneg p => ("-" ++ str_of_N (Npos p))%string
  | _ => str_of_N (Z.to_N z)
  end.

Definition admin_edit_post_body (post_id : Z) : dict :=
  [("message", PStr ("Editing post with ID: " ++ str_of_Z post_id)%string);
   ("page", PStr "Admin Post Editor");
   ("post_id", PInt post_id)].

Inductive admin_route : Type :=
| AdminDashboard
| AdminPosts
| AdminEditPost (post_id : Z).

Definition admin_body (r : admin_route) : dict :=
  match r with
  | AdminDashboard => admin_dashboard_body
  | AdminPosts => admin_posts_body
  | AdminEditPost post_id => admin_edit_post_body post_id
  end.

(** GET on one of the gated admin routes. *)
Definition get_admin {W : Type} (r : admin_route) : handler W dict :=
  depends_authenticate_admin (pure_handler (admin_body r)).

(** ** Health reporter *)

(** A [datetime]; [tzinfo] is the UTC offset in minutes, [None] when naive. *)
Record datetime : Type := {
  year : N; month : N; day : N;
  hour : N; minute : N; second : N; microsecond : N;
  tzinfo : option Z
}.

Definition timezone_utc : Z := 0.

(** [datetime.datetime.now(tz)]: the clock's reading, carrying [tz]. *)
Definition datetime_now (clock : datetime) (tz : Z) : datetime :=
  {| year := year clock; month := month clock; day := day clock;
     hour := hour clock; minute := minute clock; second := second clock;
     microsecond := microsecond clock; tzinfo := Some tz |}.

Fixpoint zeros (n : nat) : string :=
  match n with
  | O => EmptyString
  | S k => String "0" (zeros k)
  end.

(** ["%0<width>d" % n] *)
Definition fmt_d (width : nat) (n : N) : string :=
  let s := str_of_N n in
  (zeros (width - String.length s) ++ s)%string.

(** The UTC offset as [isoformat] prints it: sign, hours, minutes. *)
Definition format_offset (off : Z) : string :=
  let sign := if off <? 0 then "-" else "+" in
  let a := Z.to_N (Z.abs off) in
  (sign ++ fmt_d 2 (a / 60) ++ ":" ++ fmt_d 2 (a mod 60))%string.

(** The date and time of day as [isoformat] prints them for
    [timespec="seconds"]: [YYYY-MM-DDTHH:MM:SS]. *)
Definition iso_date_time (dt : datetime) : string :=
  (fmt_d 4 (year dt) ++ "-" ++ fmt_d 2 (month dt) ++ "-" ++ fmt_d 2 (day dt)
   ++ "T"
   ++ fmt_d 2 (hour dt) ++ ":" ++ fmt_d 2 (minute dt) ++ ":"
   ++ fmt_d 2 (second dt))%string.

(** [dt.isoformat(timespec="seconds")]: an aware datetime prints its UTC
    offset after the time. *)
Definition isoformat_seconds (dt : datetime) : string :=
  (iso_date_time dt
   ++ match tzinfo dt with
      | Some off => format_offset off
      | None => ""
      end)%string.

(** GET /health, at the given clock reading. *)
Definition health_check (clock : datetime) : response HealthCheckResponse :=
  Returned
    {| hc_status := "healthy";
       hc_timestamp :=
         (isoformat_seconds (datetime_now clock timezone_utc) ++ "Z")%string;
       hc_service := PROJECT_NAME |}.


(** ** The pipeline, and the vocabulary of the statements *)


(** One item through both stages. *)
Definition item_pipeline (item : pyval) : result float :=
  i <- MockPreprocessor.processed_item item ;; MockModel.score i.


(** The float literal [10.0] = 10 * 2^49 * 2^-49. *)
Definition f_ten : float := S754_finite false 5629499534213120 (-49).

(** What [v * 10 if isinstance(v, (int, float)) else v] evaluates to. *)
Definition scaled (v : pyval) : pyval :=
  match v with
  | PBool b => PInt (Z.b2z b * 10)
  | PInt z => PInt (z * 10)
  | PFloat f => PFloat (f_mul f f_ten)
  | _ => v
  end.

(** A record with every key prefixed and every value scaled, in place. *)
Definition rename_scale (d : dict) : dict :=
  map (fun kv => (MockPreprocessor.processed_key (fst kv), scaled (snd kv))) d.

(** The JSON scalars of the specification's Record: number, string,
    boolean, null. *)
Definition is_scalar (v : pyval) : bool :=
  match v with
  | PList _ | PDict _ => false
  | _ => true
  end.

Definition Record_ (d : dict) : Prop :=
  wf_dict d /\ Forall (fun v => is_scalar v = true) (values d).


(** The preprocess stage in the specification's words: a number times 10,
    anything else unchanged. *)
Definition spec_processed_value (v : pyval) : pyval :=
  match v with
  | PInt z => PInt (z * 10)
  | PFloat f => PFloat (f_mul f f_ten)
  | _ => v
  end.

(** [int] or [bool]. *)
Definition int_like (v : pyval) : bool :=
  match v with
  | PInt _ | PBool _ => true
  | _ => false
  end.

(** The exact total of the int-like values of a list. *)
Fixpoint int_total (vs : list pyval) : Z :=
  match vs with
  | [] => 0
  | v :: rest =>
      match as_int v with
      | Some z => z
      | None => 0
      end + int_total rest
  end.

(** [sum(vs) / len(vs)], the mean as [predict] computes it. *)
Definition mean (vs : list pyval) : result float :=
  s <- py_sum vs ;; py_truediv s (py_len vs).

(** A dict of fewer than [2^64] fields whose ints are below [B] in
    magnitude. *)
Definition small_ints (B : Z) (d : dict) : Prop :=
  Z.of_nat (List.length d) < 2 ^ 64 /\
  Forall (fun v => forall z, v = PInt z -> Z.abs z < B) (values d).


(** A running total: a float, or an int of magnitude at most [A]. *)
Definition within (A : Z) (acc : pyval) : Prop :=
  match acc with
  | PInt a => Z.abs a <= A
  | PFloat _ => True
  | _ => False
  end.

(** The timestamp the specification asks of GET /health: the UTC time in
    ISO-8601 with second precision, closed by the [Z] designator. *)
Definition spec_timestamp (clock : datetime) : string :=
  (iso_date_time clock ++ "Z")%string.

(** The request and the intermediate values of the specification's
    end-to-end example. *)
Definition example_record : dict :=
  [("feature1", PInt 10); ("feature2", PInt 20)].

Definition example_processed : dict :=
  [("processed_feature1", PInt 100); ("processed_feature2", PInt 200)].

Definition example_body : pyval :=
  PDict [("data", PList [PDict example_record])].

(** The clock reading of the [HealthCheckResponse] example,
    2023-10-27 10:00:00 UTC. *)
Definition example_clock : datetime :=
  {| year := 2023; month := 10; day := 27;
     hour := 10; minute := 0; second := 0; microsecond := 0;
     tzinfo := None |}.


(** The float [f] holds exactly the integer [q]. *)
Definition represents (f : float) (q : Z) : Prop :=
  match f with
  | S754_zero _ => q = 0
  | S754_finite s m e =>
      s = (q <? 0) /\ e <= 0 /\ Z.pos m = Z.abs q * 2 ^ (- e)
  | _ => False
  end.

(** The fields of a dict whose value passes [isinstance(v, (int, float))]. *)
Definition numeric_fields (d : dict) : dict :=
  filter (fun kv => isinstance_int_float (snd kv)) d.


(** The reading of a decimal numeral, [int(s)]. *)
Definition N_of_str (s : string) : N :=
  match NilZero.uint_of_string s with
  | Some u => N.of_uint u
  | None => 0%N
  end.

(** A clock reading within the ranges of a [datetime]'s fields. *)
Definition in_range (c : datetime) : Prop :=
  (year c < 10000 /\ month c < 100 /\ day c < 100 /\
   hour c < 100 /\ minute c < 100 /\ second c < 100)%N.

(** Two clock readings that agree down to the second. *)
Definition same_second (c1 c2 : datetime) : Prop :=
  year c1 = year c2 /\ month c1 = month c2 /\ day c1 = day c2 /\
  hour c1 = hour c2 /\ minute c1 = minute c2 /\ second c1 = second c2.

(** The largest finite float, (2^53 - 1) * 2^971. *)
Definition f_max : float := S754_finite false 9007199254740991 971.

(** * Proofs *)

(** ** Facts on binary64 rounding *)

Section Rounding.

Local Abbreviation dg := Zdigits2.
Local Abbreviation fexp64 := (fexp prec emax).

Lemma fexp64_eq x : fexp64 x = Z.max (x - 53) (-1074).
Proof. reflexivity. Qed.

Lemma digits2_pos_size p : digits2_pos p = Pos.size p.
Proof. induction p; simpl; congruence. Qed.

Lemma dg_log2 m : 0 < m -> dg m = Z.log2 m + 1.
Proof.
  destruct m as [|p|p]; try lia. intros _.
  destruct p; simpl; rewrite ?digits2_pos_size; lia.
Qed.

Lemma dg_nonneg m : 0 <= dg m.
Proof. destruct m; simpl; lia. Qed.

Lemma dg_pos m : 0 < m -> 0 < dg m.
Proof. destruct m; simpl; lia. Qed.

Lemma dg_mono m n : 0 <= m <= n -> dg m <= dg n.
Proof.
  intros [Hm Hmn].
  destruct (Z.eq_dec m 0) as [->|Hne].
  - apply dg_nonneg.
  - rewrite !dg_log2 by lia.
    pose proof (Z.log2_le_mono m n Hmn). lia.
Qed.

Lemma dg_succ m : 0 <= m -> dg (m + 1) <= dg m + 1.
Proof.
  intros Hm.
  destruct (Z.eq_dec m 0) as [->|Hne]; [simpl; lia|].
  replace (m + 1) with (Z.succ m) by lia.
  rewrite !dg_log2 by lia.
  pose proof (Z.log2_succ_le m). lia.
Qed.

Lemma dg_shiftl m n : 0 < m -> 0 <= n -> dg (Z.shiftl m n) = dg m + n.
Proof.
  intros Hm Hn.
  assert (0 < Z.shiftl m n).
  { rewrite Z.shiftl_mul_pow2 by lia.
    apply Z.mul_pos_pos; [lia | apply Z.pow_pos_nonneg; lia]. }
  rewrite !dg_log2 by lia.
  rewrite Z.log2_shiftl by lia. lia.
Qed.

(** Dropping [n] low bits of a number of more than [n] bits. *)
Lemma dg_div_pow2 m n :
  0 < m -> 0 <= n < dg m -> 0 < m / 2 ^ n /\ dg (m / 2 ^ n) = dg m - n.
Proof.
  intros Hm [Hn Hlt].
  rewrite dg_log2 in Hlt by lia.
  assert (Hpos : 0 < m / 2 ^ n).
  { apply Z.div_str_pos. split; [apply Z.pow_pos_nonneg; lia|].
    pose proof (Z.log2_spec m Hm) as [Hlo _].
    apply Z.le_trans with (2 ^ Z.log2 m); [|exact Hlo].
    apply Z.pow_le_mono_r; lia. }
  split; [exact Hpos|].
  rewrite !dg_log2 by lia.
  rewrite <- Z.shiftr_div_pow2 by lia.
  rewrite Z.log2_shiftr by lia. lia.
Qed.

(** Dropping [n] low bits never lengthens a number. *)
Lemma dg_div_pow2_le m n :
  0 <= m -> 0 <= n -> dg (m / 2 ^ n) <= Z.max 0 (dg m - n).
Proof.
  intros Hm Hn.
  destruct (Z.eq_dec m 0) as [->|Hne].
  { rewrite Z.div_0_l by (apply Z.pow_nonzero; lia). simpl. lia. }
  destruct (Z_lt_le_dec n (dg m)) as [Hlt|Hge].
  - destruct (dg_div_pow2 m n) as [_ ->]; lia.
  - assert (m / 2 ^ n = 0) as ->; [|simpl; lia].
    apply Z.div_small. split; [lia|].
    rewrite dg_log2 in Hge by lia.
    pose proof (Z.log2_spec m ltac:(lia)) as [_ Hhi].
    apply Z.lt_le_trans with (2 ^ Z.succ (Z.log2 m)); [exact Hhi|].
    apply Z.pow_le_mono_r; lia.
Qed.

Lemma shr_1_m r : 0 <= shr_m r -> shr_m (shr_1 r) = shr_m r / 2.
Proof.
  destruct r as [m r s]. simpl. intros Hm.
  destruct m as [|p|p]; try lia; [reflexivity|].
  destruct p as [p|p|]; simpl shr_m.
  - rewrite Pos2Z.inj_xI. apply Z.div_unique with (r := 1); lia.
  - rewrite Pos2Z.inj_xO. apply Z.div_unique with (r := 0); lia.
  - reflexivity.
Qed.

Ltac pow2_side :=
  first [ lia
        | apply Z.pow_pos_nonneg; lia
        | apply Z.pow_nonzero; lia
        | apply Z.lt_gt; apply Z.pow_pos_nonneg; lia ].

Lemma div_pow2_nonneg a n : 0 <= a -> 0 <= n -> 0 <= a / 2 ^ n.
Proof. intros. apply Z.div_pos; [lia | apply Z.pow_pos_nonneg; lia]. Qed.

Lemma shr_iter_m p : forall r,
  0 <= shr_m r -> shr_m (iter_pos shr_1 p r) = shr_m r / 2 ^ Zpos p.
Proof.
  induction p as [p IH|p IH|]; intros r Hr; simpl iter_pos.
  - assert (H1 : 0 <= shr_m (shr_1 r)).
    { rewrite shr_1_m by lia. apply (div_pow2_nonneg _ 1); lia. }
    assert (H2 : 0 <= shr_m (iter_pos shr_1 p (shr_1 r))).
    { rewrite IH by lia. apply div_pow2_nonneg; lia. }
    rewrite IH, IH, shr_1_m by lia.
    rewrite !Z.div_div by pow2_side.
    f_equal. replace (Z.pos p~1) with (1 + Z.pos p + Z.pos p) by lia.
    rewrite !Z.pow_add_r by lia. rewrite Z.pow_1_r. lia.
  - assert (H1 : 0 <= shr_m (iter_pos shr_1 p r)).
    { rewrite IH by lia. apply div_pow2_nonneg; lia. }
    rewrite IH, IH by lia.
    rewrite Z.div_div by pow2_side.
    f_equal. replace (Z.pos p~0) with (Z.pos p + Z.pos p) by lia.
    rewrite Z.pow_add_r by lia. reflexivity.
  - rewrite shr_1_m by lia. reflexivity.
Qed.

Lemma shr_record_of_loc_m m l : shr_m (shr_record_of_loc m l) = m.
Proof. destruct l as [|[]]; reflexivity. Qed.

(** One normalisation step: the exponent it lands on, and what is left of
    the mantissa. *)
Lemma shr_fexp_spec m e l :
  0 <= m ->
  let e' := Z.max e (fexp64 (dg m + e)) in
  exists r,
    shr_fexp prec emax m e l = (r, e') /\
    0 <= shr_m r /\
    dg (shr_m r) + e' <= Z.max (dg m + e) e' /\
    (0 < m -> -1074 < dg m + e ->
     0 < shr_m r /\ dg (shr_m r) + e' = dg m + e).
Proof.
  intros Hm e'. unfold shr_fexp, shr.
  pose proof (dg_nonneg m) as Hd.
  assert (He' : e' = Z.max e (fexp64 (dg m + e))) by reflexivity.
  rewrite fexp64_eq in He'.
  destruct (fexp64 (dg m + e) - e) as [|n|n] eqn:Hn;
    rewrite fexp64_eq in Hn.
  - exists (shr_record_of_loc m l). rewrite shr_record_of_loc_m.
    replace e' with e by lia. repeat split; try lia.
  - exists (iter_pos shr_1 n (shr_record_of_loc m l)).
    rewrite shr_iter_m, shr_record_of_loc_m
      by (rewrite shr_record_of_loc_m; lia).
    replace (e + Z.pos n) with e' by lia.
    split; [reflexivity|]. split; [apply div_pow2_nonneg; lia|].
    split.
    + pose proof (dg_div_pow2_le m (Z.pos n) Hm ltac:(lia)). lia.
    + intros Hpos Hmin.
      destruct (dg_div_pow2 m (Z.pos n) Hpos) as [Hq Hdq]; [lia|].
      split; [exact Hq|]. rewrite Hdq. lia.
  - exists (shr_record_of_loc m l). rewrite shr_record_of_loc_m.
    replace e' with e by lia. repeat split; try lia.
Qed.

Lemma round_nearest_even_bounds m l :
  m <= round_nearest_even m l <= m + 1.
Proof.
  destruct l as [|[]]; simpl; try lia.
  destruct (Z.even m); lia.
Qed.

(** What [binary_round_aux] can return: no infinity below the overflow
    threshold, no zero for a positive mantissa above the underflow
    threshold. *)
Lemma binary_round_aux_shape s m e l :
  0 <= m ->
  let f := binary_round_aux prec emax s m e l in
  (dg m + e <= 1022 -> e <= 971 -> f_is_inf f = false) /\
  (0 < m -> -1074 < dg m + e -> f_is_zero f = false).
Proof.
  intros Hm f. subst f. unfold binary_round_aux.
  destruct (shr_fexp_spec m e l Hm) as (r1 & -> & Hr1 & Hd1 & Hp1).
  set (e1 := Z.max e (fexp64 (dg m + e))) in *.
  set (m2 := round_nearest_even (shr_m r1) (loc_of_shr_record r1)).
  pose proof (round_nearest_even_bounds (shr_m r1) (loc_of_shr_record r1))
    as Hm2. fold m2 in Hm2.
  assert (Hm2' : 0 <= m2) by lia.
  destruct (shr_fexp_spec m2 e1 loc_Exact Hm2') as (r2 & -> & Hr2 & Hd2 & Hp2).
  set (e2 := Z.max e1 (fexp64 (dg m2 + e1))) in *.
  assert (Hdm2 : dg (shr_m r1) <= dg m2 <= dg (shr_m r1) + 1).
  { split; [apply dg_mono; lia|].
    apply Z.le_trans with (dg (shr_m r1 + 1)); [apply dg_mono; lia|].
    apply dg_succ; lia. }
  assert (He1 : e1 = Z.max e (Z.max (dg m + e - 53) (-1074))) by reflexivity.
  assert (He2 : e2 = Z.max e1 (Z.max (dg m2 + e1 - 53) (-1074))) by reflexivity.
  split.
  - intros Hle He.
    destruct (shr_m r2) as [|q|q]; try reflexivity.
    assert (Hb : e2 <= 971) by lia.
    change (emax - prec) with 971.
    apply Z.leb_le in Hb. rewrite Hb. reflexivity.
  - intros Hpos Hmin.
    destruct (Hp1 Hpos Hmin) as [Hq1 Hdq1].
    assert (Hq2 : 0 < m2) by lia.
    destruct (Hp2 Hq2) as [Hq3 _]; [lia|].
    destruct (shr_m r2) as [|q|q]; try lia; try reflexivity.
    destruct (e2 <=? emax - prec); reflexivity.
Qed.

Lemma digits2_pos_iter_xO m d :
  Z.pos (digits2_pos (Pos.iter xO m d)) = Z.pos (digits2_pos m) + Z.pos d.
Proof.
  induction d as [|d IH] using Pos.peano_ind.
  - simpl. lia.
  - rewrite Pos.iter_succ. simpl digits2_pos. lia.
Qed.

Lemma shl_align_spec mx ex ex' :
  dg (Z.pos (fst (shl_align mx ex ex'))) + snd (shl_align mx ex ex')
    = dg (Z.pos mx) + ex
  /\ snd (shl_align mx ex ex') <= ex.
Proof.
  unfold shl_align.
  destruct (ex' - ex) as [|d|d] eqn:Hd; simpl fst; simpl snd; try lia.
  simpl dg. rewrite digits2_pos_iter_xO. lia.
Qed.

Lemma binary_round_shape s p :
  let f := binary_round prec emax s p 0 in
  f_is_zero f = false /\ (dg (Z.pos p) <= 1022 -> f_is_inf f = false).
Proof.
  intros f. subst f. unfold binary_round.
  pose proof (shl_align_spec p 0 (fexp64 (Z.pos (digits2_pos p) + 0)))
    as [Hdg Hle].
  destruct (shl_align p 0 (fexp64 (Z.pos (digits2_pos p) + 0)))
    as [mz ez]. simpl fst in *; simpl snd in *.
  pose proof (dg_pos (Z.pos p) ltac:(lia)) as Hp.
  destruct (binary_round_aux_shape s (Z.pos mz) ez loc_Exact ltac:(lia))
    as [Hinf Hzero].
  split.
  - apply Hzero; lia.
  - intros Hb. apply Hinf; lia.
Qed.

Lemma dg_bound z n : 0 <= n -> Z.abs z < 2 ^ n -> dg z <= n.
Proof.
  intros Hn Hz.
  destruct (Z.eq_dec z 0) as [->|Hne]; [simpl; lia|].
  assert (dg z = dg (Z.abs z)) as -> by (destruct z; reflexivity).
  rewrite dg_log2 by lia.
  apply Z.log2_lt_pow2 in Hz; lia.
Qed.

(** [float(z)] of a non-zero int is never zero, and an int below 2^1022
    in magnitude converts. *)
Lemma int_to_float_shape z :
  (forall f, int_to_float z = Ok f -> z <> 0 -> f_is_zero f = false) /\
  (Z.abs z < 2 ^ 1022 -> exists f, int_to_float z = Ok f) /\
  (forall e, int_to_float z = Raise e -> e = OverflowError overflow_msg).
Proof.
  unfold int_to_float.
  destruct z as [|p|p]; simpl binary_normalize.
  - repeat split; intros; try congruence; try (eexists; reflexivity).
    simpl in *. congruence.
  - destruct (binary_round_shape false p) as [Hz Hi].
    repeat split.
    + intros f Hf _. destruct (f_is_inf _); congruence.
    + intros Hb. rewrite Hi; [eexists; reflexivity|].
      apply (dg_bound (Z.pos p) 1022); lia.
    + intros e. destruct (f_is_inf _); congruence.
  - destruct (binary_round_shape true p) as [Hz Hi].
    repeat split.
    + intros f Hf _. destruct (f_is_inf _); congruence.
    + intros Hb. rewrite Hi; [eexists; reflexivity|].
      apply (dg_bound (Z.neg p) 1022); lia.
    + intros e. destruct (f_is_inf _); congruence.
Qed.

Lemma SFdiv_core_binary_spec m1 e1 m2 e2 :
  0 < m1 -> 0 < m2 ->
  exists q e' l,
    SFdiv_core_binary prec emax m1 e1 m2 e2 = (q, e', l) /\
    0 <= q /\ e' <= e1 - e2 /\ dg q + e' <= dg m1 + e1 - e2.
Proof.
  intros H1 H2. unfold SFdiv_core_binary.
  set (e' := Z.min (fexp64 (dg m1 + e1 - (dg m2 + e2))) (e1 - e2)).
  set (sh := e1 - e2 - e').
  assert (Hsh : 0 <= sh) by (unfold sh, e'; lia).
  set (m' := match sh with
             | 0 => m1
             | Z.pos _ => Z.shiftl m1 sh
             | Z.neg _ => 0
             end).
  assert (Hm' : 0 < m' /\ dg m' = dg m1 + sh).
  { unfold m'. destruct sh as [|k|k] eqn:Hk; try lia.
    split; [|apply dg_shiftl; lia].
    rewrite Z.shiftl_mul_pow2 by lia.
    apply Z.mul_pos_pos; [lia | apply Z.pow_pos_nonneg; lia]. }
  destruct Hm' as [Hm'pos Hm'dg].
  pose proof (Z.div_eucl_eq m' m2 ltac:(lia)) as Heq.
  pose proof (Z.mod_pos_bound m' m2 H2) as Hmod.
  unfold Z.modulo in Hmod.
  destruct (Z.div_eucl m' m2) as [q r].
  exists q, e', (new_location m2 r). split; [reflexivity|].
  assert (Hq : 0 <= q <= m') by nia.
  split; [lia|]. split; [unfold e'; lia|].
  pose proof (dg_mono q m' Hq). unfold sh in Hm'dg. lia.
Qed.

(** [a / b] on ints raises nothing but ZeroDivisionError for [b = 0] and
    OverflowError; a numerator below 2^1022 in magnitude divides. *)
Lemma int_truediv_shape a b :
  b <> 0 ->
  (Z.abs a < 2 ^ 1022 -> exists f, int_truediv a b = Ok f) /\
  (forall e, int_truediv a b = Raise e ->
     e = OverflowError "integer division result too large for a float").
Proof.
  intros Hb. unfold int_truediv.
  destruct (Z.eqb_spec b 0) as [|_]; [contradiction|].
  destruct (Z.eqb_spec a 0) as [|Ha].
  { split; intros; [eexists; reflexivity | congruence]. }
  split.
  - intros Hbound.
    assert (Hinf : f_is_inf (f_div (f_exact a) (f_exact b)) = false);
      [|rewrite Hinf; eexists; reflexivity].
    assert (Hda : dg a <= 1022) by (apply dg_bound; lia).
    destruct a as [|pa|pa], b as [|pb|pb]; try contradiction;
      unfold f_div, f_exact, SFdiv;
      destruct (SFdiv_core_binary_spec (Z.pos pa) 0 (Z.pos pb) 0)
        as (q & e' & l & -> & Hq & He' & Hdq); try lia;
      apply binary_round_aux_shape; simpl dg in *; lia.
  - intros e. destruct (f_is_inf _); congruence.
Qed.

End Rounding.

(** ** The error monad and [traverse] *)











(** ** The preprocess stage *)

Lemma int_to_float_10 : int_to_float 10 = Ok f_ten.
Proof. vm_compute. reflexivity. Qed.

Lemma processed_value_ok v :
  MockPreprocessor.processed_value v = Ok (scaled v).
Proof.
  destruct v as [|b|z|f|s|l|d]; reflexivity.
Qed.

Lemma processed_key_inj k1 k2 :
  MockPreprocessor.processed_key k1 = MockPreprocessor.processed_key k2 ->
  k1 = k2.
Proof.
  unfold MockPreprocessor.processed_key. simpl. intros H.
  injection H. auto.
Qed.

Lemma dict_set_fresh d k v :
  ~ In k (keys d) -> dict_set d k v = d ++ [(k, v)].
Proof.
  induction d as [|[k' v'] d IH]; simpl; intros Hk; [reflexivity|].
  destruct (String.eqb_spec k' k) as [->|Hne].
  - exfalso. apply Hk. left. reflexivity.
  - rewrite IH; [reflexivity|]. intros Hin. apply Hk. right. exact Hin.
Qed.

Lemma comprehension_fold items : forall acc,
  MockPreprocessor.comprehension items acc
  = Ok (fold_left
          (fun a kv =>
             dict_set a (MockPreprocessor.processed_key (fst kv)) (scaled (snd kv)))
          items acc).
Proof.
  induction items as [|[k v] items IH]; intros acc; simpl; [reflexivity|].
  rewrite processed_value_ok. simpl. apply IH.
Qed.

Lemma keys_rename_scale d :
  keys (rename_scale d) = map MockPreprocessor.processed_key (keys d).
Proof.
  unfold keys, rename_scale. rewrite !map_map. reflexivity.
Qed.

Lemma fold_rename_scale items : forall acc,
  NoDup (keys acc ++ keys (rename_scale items)) ->
  fold_left
    (fun a kv =>
       dict_set a (MockPreprocessor.processed_key (fst kv)) (scaled (snd kv)))
    items acc
  = acc ++ rename_scale items.
Proof.
  induction items as [|[k v] items IH]; intros acc Hnd; simpl.
  - rewrite app_nil_r. reflexivity.
  - simpl in Hnd.
    rewrite dict_set_fresh.
    + rewrite IH.
      * rewrite <- app_assoc. reflexivity.
      * unfold keys at 1. rewrite map_app. simpl.
        rewrite <- app_assoc. exact Hnd.
    + apply NoDup_remove_2 in Hnd. intros Hin. apply Hnd.
      apply in_or_app. left. exact Hin.
Qed.

Lemma wf_rename_scale d : wf_dict d -> wf_dict (rename_scale d).
Proof.
  unfold wf_dict. intros H. rewrite keys_rename_scale.
  apply Injective_map_NoDup; [|exact H].
  intros k1 k2. apply processed_key_inj.
Qed.

(** On a dict, the comprehension renames and scales field by field. *)
Lemma comprehension_wf d :
  wf_dict d -> MockPreprocessor.comprehension d [] = Ok (rename_scale d).
Proof.
  intros H. rewrite comprehension_fold, fold_rename_scale; [reflexivity|].
  simpl. apply wf_rename_scale. exact H.
Qed.

Lemma wf_dict_In_head k v v' d :
  wf_dict ((k, v) :: d) -> In (k, v') ((k, v) :: d) -> v' = v.
Proof.
  intros Hwf [[= ->]|Hin]; [reflexivity|].
  inversion Hwf as [|? ? Hnotin _]; subst. exfalso. apply Hnotin.
  apply (in_map fst) in Hin. exact Hin.
Qed.

Lemma dict_get_rename_scale d k v :
  wf_dict d -> In (k, v) d ->
  dict_get (rename_scale d) (MockPreprocessor.processed_key k) = Some (scaled v).
Proof.
  induction d as [|[k0 v0] d IH]; intros Hwf Hin; [contradiction|].
  change (dict_get (rename_scale ((k0, v0) :: d)) (MockPreprocessor.processed_key k))
    with (if String.eqb (MockPreprocessor.processed_key k0)
                        (MockPreprocessor.processed_key k)
          then Some (scaled v0)
          else dict_get (rename_scale d) (MockPreprocessor.processed_key k)).
  destruct (String.eqb_spec (MockPreprocessor.processed_key k0)
                            (MockPreprocessor.processed_key k)) as [Heq|Hne].
  - apply processed_key_inj in Heq. subst k0.
    rewrite (wf_dict_In_head _ _ _ _ Hwf Hin). reflexivity.
  - destruct Hin as [[= -> ->]|Hin]; [congruence|].
    apply IH; [|exact Hin]. inversion Hwf. assumption.
Qed.

Lemma isinstance_scaled v :
  isinstance_int_float (scaled v) = isinstance_int_float v.
Proof. destruct v; reflexivity. Qed.

Lemma numeric_values_rename_scale d :
  MockModel.numeric_values (rename_scale d)
  = map scaled (MockModel.numeric_values d).
Proof.
  unfold MockModel.numeric_values, values.
  induction d as [|[k v] d IH]; simpl; [reflexivity|].
  rewrite isinstance_scaled.
  destruct (isinstance_int_float v); simpl; rewrite IH; reflexivity.
Qed.

(** ** The predict stage *)



Lemma numeric_values_In d v :
  In v (MockModel.numeric_values d)
  <-> In v (values d) /\ isinstance_int_float v = true.
Proof. apply filter_In. Qed.




Lemma length_pos_Z {A : Type} (x : A) (l : list A) :
  0 < Z.of_nat (List.length (x :: l)).
Proof. simpl List.length. lia. Qed.


(** The total of int-like values is their exact integer sum. *)
Lemma sum_from_int_like vs : forall a,
  Forall (fun v => int_like v = true) vs ->
  sum_from (PInt a) vs = Ok (PInt (a + int_total vs)).
Proof.
  induction vs as [|v vs IH]; intros a Hvs; simpl.
  - rewrite Z.add_0_r. reflexivity.
  - inversion Hvs as [|? ? Hv Hvs']; subst.
    destruct v as [|b|z| | | |]; try discriminate; simpl;
      rewrite IH by exact Hvs'; rewrite Z.add_assoc; reflexivity.
Qed.

Lemma py_add_bounded A M acc v :
  within A acc -> isinstance_int_float v = true ->
  (forall z, as_int v = Some z -> Z.abs z <= M) ->
  0 <= A -> 0 <= M -> A + M < 2 ^ 1022 ->
  exists r, py_add acc v = Ok r /\ within (A + M) r.
Proof.
  intros Hacc Hv Hz HA HM Hlt.
  destruct acc as [|?|a|f|?|?|?]; try contradiction;
    destruct v as [|b|z|g|?|?|?]; try discriminate;
    unfold py_add; cbn [as_int]; simpl in Hacc.
  - eexists. split; [reflexivity|]. simpl.
    specialize (Hz _ eq_refl). lia.
  - eexists. split; [reflexivity|]. simpl.
    specialize (Hz _ eq_refl). lia.
  - destruct (int_to_float_shape a) as (_ & Hok & _).
    destruct Hok as [x Hx]; [lia|]. rewrite Hx. simpl.
    eexists. split; [reflexivity | exact I].
  - destruct (int_to_float_shape (Z.b2z b)) as (_ & Hok & _).
    destruct Hok as [x Hx]; [specialize (Hz _ eq_refl); lia|].
    rewrite Hx. simpl. eexists. split; [reflexivity | exact I].
  - destruct (int_to_float_shape z) as (_ & Hok & _).
    destruct Hok as [x Hx]; [specialize (Hz _ eq_refl); lia|].
    rewrite Hx. simpl. eexists. split; [reflexivity | exact I].
  - eexists. split; [reflexivity | exact I].
Qed.

Lemma sum_from_bounded M vs : forall A acc,
  within A acc ->
  Forall (fun v => isinstance_int_float v = true /\
                   forall z, as_int v = Some z -> Z.abs z <= M) vs ->
  0 <= A -> 0 <= M -> A + Z.of_nat (List.length vs) * M < 2 ^ 1022 ->
  exists r, sum_from acc vs = Ok r /\
            within (A + Z.of_nat (List.length vs) * M) r.
Proof.
  induction vs as [|v vs IH]; intros A acc Hacc Hvs HA HM Hlt.
  - exists acc. split; [reflexivity|].
    simpl List.length. rewrite Z.add_0_r. exact Hacc.
  - inversion Hvs as [|? ? [Hv Hz] Hvs']; subst.
    assert (Hlen : Z.of_nat (List.length (v :: vs))
                   = 1 + Z.of_nat (List.length vs))
      by (simpl List.length; lia).
    rewrite Hlen in *.
    destruct (py_add_bounded A M acc v Hacc Hv Hz HA HM) as (r & Hr & Hw);
      [nia|].
    destruct (IH (A + M) r Hw Hvs') as (r' & Hr' & Hw'); [lia | lia | nia |].
    exists r'. split.
    + simpl. rewrite Hr. simpl. exact Hr'.
    + replace (A + (1 + Z.of_nat (List.length vs)) * M)
        with (A + M + Z.of_nat (List.length vs) * M) by lia.
      exact Hw'.
Qed.

Lemma truediv_count_ok A s n :
  within A s -> A < 2 ^ 1022 -> 0 < n < 2 ^ 1022 ->
  exists q, py_truediv s (PInt n) = Ok q.
Proof.
  intros Hs HA Hn.
  destruct s as [|?|a|f|?|?|?]; try contradiction;
    unfold py_truediv; cbn [as_int]; simpl in Hs.
  - apply int_truediv_shape; lia.
  - destruct (int_to_float_shape n) as (Hnz & Hok & _).
    destruct Hok as [g Hg]; [lia|]. rewrite Hg. simpl.
    unfold float_truediv. rewrite (Hnz g Hg) by lia.
    eexists. reflexivity.
Qed.

Lemma pow2_budget : 2 ^ 64 * 2 ^ 904 < 2 ^ 1022.
Proof. vm_compute. reflexivity. Qed.

(** The score of a dict with small ints is a float. *)
Lemma score_small_ints d :
  small_ints (2 ^ 904) d -> exists q, MockModel.score (PDict d) = Ok q.
Proof.
  intros [Hlen Hsmall]. unfold MockModel.score.
  assert (Hnv : Forall (fun v => isinstance_int_float v = true /\
                                 forall z, as_int v = Some z -> Z.abs z <= 2 ^ 904)
                       (MockModel.numeric_values d)).
  { apply Forall_forall. intros v Hv.
    apply numeric_values_In in Hv as [Hin Hnum]. split; [exact Hnum|].
    rewrite Forall_forall in Hsmall. specialize (Hsmall v Hin).
    assert (1 <= 2 ^ 904) by (apply (Z.pow_le_mono_r 2 0 904); lia).
    destruct v as [|b|z| | | |]; try discriminate; simpl; intros z' [= <-].
    - destruct b; simpl; lia.
    - specialize (Hsmall z eq_refl). lia. }
  assert (Hcount : Z.of_nat (List.length (MockModel.numeric_values d)) < 2 ^ 64).
  { pose proof (filter_length_le isinstance_int_float (values d)) as Hle.
    unfold values in Hle. rewrite length_map in Hle.
    unfold MockModel.numeric_values, values. lia. }
  destruct (MockModel.numeric_values d) as [|v vs] eqn:Hnum;
    [eexists; reflexivity|].
  pose proof pow2_budget as Hbudget.
  assert (Hpos : 0 < 2 ^ 904) by (apply Z.pow_pos_nonneg; lia).
  assert (Htotal : 0 + Z.of_nat (List.length (v :: vs)) * 2 ^ 904 < 2 ^ 1022).
  { apply Z.le_lt_trans with (2 ^ 64 * 2 ^ 904); [|exact Hbudget].
    rewrite Z.add_0_l. apply Z.mul_le_mono_nonneg_r; lia. }
  destruct (sum_from_bounded (2 ^ 904) (v :: vs) 0 (PInt 0)) as (s & Hs & Hw);
    try lia; [simpl; lia | exact Hnv |].
  unfold py_sum. rewrite Hs. simpl bind.
  apply (truediv_count_ok _ s _ Hw Htotal).
  split; [apply (length_pos_Z v vs)|].
  apply Z.lt_trans with (2 ^ 64); [exact Hcount|].
  apply Z.pow_lt_mono_r; lia.
Qed.


(** ** Both stages together *)





Lemma processed_item_wf d :
  wf_dict d ->
  MockPreprocessor.processed_item (PDict d) = Ok (PDict (rename_scale d)).
Proof.
  intros H. unfold MockPreprocessor.processed_item.
  rewrite comprehension_wf by exact H. reflexivity.
Qed.




(** On a dict the two stages amount to the mean of the scaled numeric
    values. *)
Lemma item_pipeline_wf d :
  wf_dict d ->
  item_pipeline (PDict d)
  = match MockModel.numeric_values d with
    | [] => Ok f_half
    | _ :: _ => mean (map scaled (MockModel.numeric_values d))
    end.
Proof.
  intros Hwf. unfold item_pipeline. rewrite processed_item_wf by exact Hwf.
  simpl bind. unfold MockModel.score. rewrite numeric_values_rename_scale.
  destruct (MockModel.numeric_values d); reflexivity.
Qed.




(** * The claims *)

(** C1.  With the AI feature enabled and both pipeline objects initialised,
    POST /predict with the body [{"data": [{"feature1": 10, "feature2": 20}]}]
    answers status 200 with predictions [[150.0]] and status ["success"]:
    preprocess turns the record into
    [{"processed_feature1": 100, "processed_feature2": 200}] and predict
    returns the mean of the two, 150.0. *)
Theorem predict_example st model pre :
  AI_ENABLED st = true ->
  ml_model st = Some model ->
  preprocessor st = Some pre ->
  post_predict st example_body
    = Returned {| predictions := [Prim2SF 150%float]; status := "success" |}
  /\ status_of (post_predict st example_body) = 200
  /\ MockPreprocessor.preprocess pre [PDict example_record]
     = Ok [PDict example_processed]
  /\ MockModel.predict model [PDict example_processed]
     = Ok [Prim2SF 150%float].
Proof.
  intros Hon Hm Hp.
  assert (Hpost : post_predict st example_body
            = Returned {| predictions := [Prim2SF 150%float];
                          status := "success" |}).
  { unfold post_predict. rewrite Hon.
    change (parse_PredictionInput example_body)
      with (Some {| data := [example_record] |}).
    unfold predict. rewrite Hm, Hp. vm_compute. reflexivity. }
  split; [exact Hpost|]. split; [rewrite Hpost; reflexivity|].
  split; vm_compute; reflexivity.
Qed.

Lemma predict_example_witness :
  post_predict the_app example_body
    = Returned {| predictions := [Prim2SF 150%float]; status := "success" |}.
Proof.
  exact (proj1 (predict_example the_app MockModel.new MockPreprocessor.new
                  eq_refl eq_refl eq_refl)).
Defined.

(** C2, as the specification states it, fails on a boolean: [True] is an
    [int] for [isinstance], so the record [{"flag": true}] comes out as
    [{"processed_flag": 10}], not with the value unchanged. *)
Lemma preprocess_bool_counterexample :
  ~ (forall d k v, Record_ d -> In (k, v) d ->
       exists d', MockPreprocessor.processed_item (PDict d) = Ok (PDict d') /\
                  dict_get d' (MockPreprocessor.processed_key k)
                  = Some (spec_processed_value v)).
Proof.
  intros H.
  destruct (H [("flag", PBool true)] "flag" (PBool true)) as (d' & Hd' & Hget).
  - split.
    + repeat constructor. intros [].
    + repeat constructor.
  - left. reflexivity.
  - vm_compute in Hd'. injection Hd' as <-. vm_compute in Hget. discriminate.
Qed.

(** C2, amended.  For every record and every (field, value) pair in it,
    preprocess emits the field under the name [processed_<field>], with the
    value times 10 when it is an int or a float (the float product rounded
    to binary64), with the int 10 or 0 when it is the boolean [True] or
    [False], and with the value unchanged when it is a string or null; on
    every value but a boolean this is what the specification asks. *)
Theorem preprocess_field d k v :
  wf_dict d -> In (k, v) d ->
  exists d',
    MockPreprocessor.processed_item (PDict d) = Ok (PDict d') /\
    MockPreprocessor.processed_key k = ("processed_" ++ k)%string /\
    dict_get d' (MockPreprocessor.processed_key k) = Some (scaled v) /\
    (forall z, v = PInt z -> scaled v = PInt (z * 10)) /\
    (forall f, v = PFloat f -> scaled v = PFloat (f_mul f (Prim2SF 10%float))) /\
    (forall b, v = PBool b -> scaled v = PInt (if b then 10 else 0)) /\
    (v = PNone \/ (exists s, v = PStr s) -> scaled v = v) /\
    ((forall b, v <> PBool b) -> scaled v = spec_processed_value v).
Proof.
  intros Hwf Hin. exists (rename_scale d).
  split; [apply processed_item_wf; exact Hwf|].
  split; [reflexivity|].
  split; [apply dict_get_rename_scale; assumption|].
  repeat split.
  - intros z ->. reflexivity.
  - intros f ->. reflexivity.
  - intros b ->. destruct b; reflexivity.
  - intros [->|[s ->]]; reflexivity.
  - intros Hb. destruct v; try reflexivity. exfalso. apply (Hb b). reflexivity.
Qed.

Lemma preprocess_field_witness :
  exists d',
    MockPreprocessor.processed_item (PDict [("a", PInt 2); ("b", PStr "x")])
      = Ok (PDict d') /\
    dict_get d' "processed_a" = Some (PInt 20) /\
    dict_get d' "processed_b" = Some (PStr "x").
Proof.
  assert (Hwf : wf_dict [("a", PInt 2); ("b", PStr "x")]).
  { unfold wf_dict. simpl. repeat constructor; simpl; intuition discriminate. }
  destruct (preprocess_field [("a", PInt 2); ("b", PStr "x")] "a" (PInt 2) Hwf
              (or_introl eq_refl)) as (d' & Hd' & _ & Ha & _).
  destruct (preprocess_field [("a", PInt 2); ("b", PStr "x")] "b" (PStr "x") Hwf
              (or_intror (or_introl eq_refl))) as (d'' & Hd'' & _ & Hb & _).
  exists d'. split; [exact Hd'|]. split; [exact Ha|].
  rewrite Hd' in Hd''. injection Hd'' as <-. exact Hb.
Defined.

(** C10.  For every dict, preprocess keeps the number of fields: the
    renaming [k |-> processed_<k>] is injective, so the output has one field
    for each input field, under pairwise distinct keys. *)
Theorem preprocess_preserves_fields d :
  wf_dict d ->
  exists d',
    MockPreprocessor.processed_item (PDict d) = Ok (PDict d') /\
    List.length d' = List.length d /\
    keys d' = map MockPreprocessor.processed_key (keys d) /\
    wf_dict d' /\
    (forall k1 k2,
       MockPreprocessor.processed_key k1 = MockPreprocessor.processed_key k2 ->
       k1 = k2).
Proof.
  intros Hwf. exists (rename_scale d).
  split; [apply processed_item_wf; exact Hwf|].
  split; [unfold rename_scale; apply length_map|].
  split; [apply keys_rename_scale|].
  split; [apply wf_rename_scale; exact Hwf|].
  apply processed_key_inj.
Qed.

Lemma preprocess_preserves_fields_witness :
  exists d',
    MockPreprocessor.processed_item (PDict example_record) = Ok (PDict d') /\
    List.length d' = 2%nat.
Proof.
  assert (Hwf : wf_dict example_record).
  { unfold wf_dict. simpl. repeat constructor; simpl; intuition discriminate. }
  destruct (preprocess_preserves_fields example_record Hwf)
    as (d' & Hd' & Hlen & _).
  exists d'. split; [exact Hd' | exact Hlen].
Defined.


















(** ** The admin gate *)

Lemma authenticate_admin_accepts token :
  authenticate_admin token = Returned true <-> token = Some FAKE_ADMIN_TOKEN.
Proof.
  unfold authenticate_admin. destruct token as [s|]; simpl.
  - destruct (String.eqb_spec s FAKE_ADMIN_TOKEN) as [->|Hne]; simpl.
    + split; reflexivity.
    + rewrite orb_true_r. split; [discriminate | congruence].
  - split; discriminate.
Qed.

Lemma authenticate_admin_rejects token :
  token <> Some FAKE_ADMIN_TOKEN -> authenticate_admin token = Failed unauthorized.
Proof.
  intros Hne. unfold authenticate_admin. destruct token as [s|]; simpl.
  - destruct (String.eqb_spec s FAKE_ADMIN_TOKEN) as [->|_]; simpl.
    + congruence.
    + rewrite orb_true_r. reflexivity.
  - reflexivity.
Qed.

(** The gate as the docstring of [authenticate_admin] describes it, which
    is the module's behaviour had the lambda's parameter been annotated
    [Request]: a request whose X-Admin-Token header is absent or differs
    from the secret fails with 401 and a challenge, and the handler does not
    run; one whose header equals the secret reaches the handler. *)
Lemma gate_on_request (W A : Type) (h : handler W A) (request : Request) (w : W) :
  let token := headers_get (req_headers request) "X-Admin-Token" in
  (token <> Some FAKE_ADMIN_TOKEN ->
   admin_gate AnnotatedRequest h request w = (Failed unauthorized, w)) /\
  (token = Some FAKE_ADMIN_TOKEN ->
   admin_gate AnnotatedRequest h request w = h request w) /\
  status_code unauthorized = 401 /\
  In ("WWW-Authenticate", "Bearer") (headers unauthorized).
Proof.
  intros token. unfold admin_gate, solve_token. simpl. fold token.
  split; [|split; [|split]].
  - intros Hne. rewrite (authenticate_admin_rejects token Hne). reflexivity.
  - intros Hok. rewrite (proj2 (authenticate_admin_accepts token) Hok).
    reflexivity.
  - reflexivity.
  - left. reflexivity.
Qed.

(** C4.  The gated admin routes as the module wires them never reach their
    handler, whatever the X-Admin-Token header: the lambda's parameter [x]
    is bound to the query parameter of that name, so a request without it
    is refused with 422, and one with it fails with 500 when the lambda
    reads [x.headers] off a string.  The header is never compared to the
    secret, and status 401 is never given. *)
Theorem admin_gate_never_admits (W A : Type) (h : handler W A)
    (request : Request) (w : W) :
  exists e,
    depends_authenticate_admin h request w = (Failed e, w) /\
    (query_get (req_query request) "x" = None -> status_code e = 422) /\
    (query_get (req_query request) "x" <> None -> status_code e = 500) /\
    status_code e <> 401.
Proof.
  unfold depends_authenticate_admin, admin_gate, solve_token, bind_parameter.
  destruct (query_get (req_query request) "x") as [s|]; simpl.
  - exists internal_server_error.
    split; [reflexivity|]. split; [discriminate|]. split; [reflexivity|].
    discriminate.
  - exists (missing_query "x").
    split; [reflexivity|]. split; [reflexivity|]. split; [congruence|].
    discriminate.
Qed.

(** GET /admin/dashboard carrying the right secret in X-Admin-Token is
    answered 422, where the gate should let it through. *)
Lemma admin_dashboard_with_secret :
  status_of (fst (get_admin AdminDashboard
                    {| req_headers := [("X-Admin-Token", FAKE_ADMIN_TOKEN)];
                       req_query := [] |} tt)) = 422.
Proof. vm_compute. reflexivity. Qed.

(** ** The health reporter *)

Lemma string_app_inv_head (s a b : string) :
  (s ++ a)%string = (s ++ b)%string -> a = b.
Proof.
  induction s as [|c s IH]; simpl; intros H; [exact H|].
  injection H as H. apply IH. exact H.
Qed.

Lemma string_app_assoc (a b c : string) :
  ((a ++ b) ++ c)%string = (a ++ (b ++ c))%string.
Proof. induction a as [|x a IH]; simpl; [|rewrite IH]; reflexivity. Qed.

(** C5.  GET /health answers status 200 with status "healthy" and the
    static service name at every clock reading, but its timestamp is never
    the ISO-8601 string with the trailing [Z] designator: the datetime is
    aware, so [isoformat] already prints the offset [+00:00], and the handler
    appends [Z] after it. *)
Theorem health_check_timestamp clock :
  exists body,
    health_check clock = Returned body /\
    status_of (health_check clock) = 200 /\
    hc_status body = "healthy" /\
    hc_service body = PROJECT_NAME /\
    hc_timestamp body = (iso_date_time clock ++ "+00:00Z")%string /\
    hc_timestamp body <> spec_timestamp clock.
Proof.
  eexists. split; [reflexivity|]. split; [reflexivity|].
  split; [reflexivity|]. split; [reflexivity|].
  assert (Hts : (isoformat_seconds (datetime_now clock timezone_utc) ++ "Z")%string
                = (iso_date_time clock ++ "+00:00Z")%string).
  { unfold isoformat_seconds. simpl tzinfo.
    change (iso_date_time (datetime_now clock timezone_utc))
      with (iso_date_time clock).
    change (format_offset timezone_utc) with "+00:00".
    rewrite string_app_assoc. reflexivity. }
  simpl hc_timestamp. rewrite Hts. split; [reflexivity|].
  unfold spec_timestamp. intros H.
  apply string_app_inv_head in H. discriminate.
Qed.

(** At the clock reading of the response model's own example the handler
    answers ["2023-10-27T10:00:00+00:00Z"], where the example documents
    ["2023-10-27T10:00:00Z"]. *)
Lemma health_check_example :
  health_check example_clock
  = Returned {| hc_status := "healthy";
                hc_timestamp := "2023-10-27T10:00:00+00:00Z";
                hc_service := "Portfolio Website with Blog" |}
  /\ spec_timestamp example_clock = "2023-10-27T10:00:00Z".
Proof. split; vm_compute; reflexivity. Qed.

(** ** The feature flag *)

(** C7.  When the AI feature is disabled, every POST /predict fails with
    403 Forbidden, whatever the body; a feature configured off is
    disabled. *)
Theorem predict_disabled_forbidden st body :
  AI_ENABLED st = false ->
  post_predict st body = predict_disabled /\
  status_of (post_predict st body) = 403 /\
  (forall new_model new_preprocessor,
     AI_ENABLED (initialize false new_model new_preprocessor) = false).
Proof.
  intros Hoff. unfold post_predict. rewrite Hoff.
  repeat split.
Qed.

Lemma predict_disabled_forbidden_witness :
  status_of
    (post_predict
       (initialize false (Some MockModel.new) (Some MockPreprocessor.new))
       example_body) = 403.
Proof.
  exact (proj1 (proj2 (predict_disabled_forbidden
                         (initialize false (Some MockModel.new)
                                     (Some MockPreprocessor.new))
                         example_body eq_refl))).
Defined.

(** C8, as the specification states it, fails: when the feature is
    configured on and a pipeline object fails to initialise, the [except]
    clause clears [AI_ENABLED], so the disabled handler is the one registered
    and POST /predict answers 403, not 503. *)
Lemma predict_unavailable_counterexample :
  ~ (forall new_model new_preprocessor body,
       new_model = None \/ new_preprocessor = None ->
       status_of (post_predict (initialize true new_model new_preprocessor) body)
       = 503).
Proof.
  intros H. specialize (H None None example_body (or_introl eq_refl)).
  vm_compute in H. discriminate.
Qed.

(** C8, amended.  When the AI feature is configured on but the model or the
    preprocessor fails to initialise, startup clears the flag and every POST
    /predict fails with 403.  The enabled handler answers 503 whenever it
    runs with the model or the preprocessor missing, but startup never
    leaves the flag set with either of them missing. *)
Theorem predict_unavailable :
  (forall new_model new_preprocessor body,
     new_model = None \/ new_preprocessor = None ->
     status_of (post_predict (initialize true new_model new_preprocessor) body)
     = 403) /\
  (forall st input_data,
     ml_model st = None \/ preprocessor st = None ->
     status_of (predict st input_data) = 503) /\
  (forall configured new_model new_preprocessor,
     let st := initialize configured new_model new_preprocessor in
     AI_ENABLED st = true -> ml_model st <> None /\ preprocessor st <> None).
Proof.
  split; [|split].
  - intros [m|] [p|] body [H|H]; try discriminate; reflexivity.
  - intros st input_data H. unfold predict.
    destruct (ml_model st), (preprocessor st), H; try discriminate; reflexivity.
  - intros [|] [m|] [p|]; simpl; intros H; try discriminate.
    split; discriminate.
Qed.

Lemma predict_unavailable_witness :
  status_of (post_predict (initialize true None (Some MockPreprocessor.new))
               example_body) = 403.
Proof.
  exact (proj1 predict_unavailable None (Some MockPreprocessor.new)
           example_body (or_introl eq_refl)).
Defined.


(** * Further properties of the module *)

(** ** preprocess *)



(** X2.  On a dict preprocess keeps the fields in their order: the field at
    position [i] of the output is the field at position [i] of the input,
    its key prefixed and its value scaled. *)
Theorem preprocess_keeps_order d i k v :
  wf_dict d ->
  nth_error d i = Some (k, v) ->
  exists d',
    MockPreprocessor.processed_item (PDict d) = Ok (PDict d') /\
    nth_error d' i = Some (("processed_" ++ k)%string, scaled v).
Proof.
  intros Hwf Hnth. exists (rename_scale d).
  split; [apply processed_item_wf; exact Hwf|].
  unfold rename_scale. rewrite nth_error_map, Hnth. reflexivity.
Qed.

Lemma preprocess_keeps_order_witness :
  exists d',
    MockPreprocessor.processed_item
      (PDict [("a", PInt 2); ("b", PStr "x"); ("c", PFloat f_half)])
    = Ok (PDict d') /\
    nth_error d' 1 = Some ("processed_b", PStr "x").
Proof.
  apply (preprocess_keeps_order
           [("a", PInt 2); ("b", PStr "x"); ("c", PFloat f_half)]
           1 "b" (PStr "x")).
  - unfold wf_dict. simpl. repeat constructor; simpl; intuition discriminate.
  - reflexivity.
Defined.

(** ** predict *)



Lemma values_numeric_fields d :
  values (numeric_fields d) = MockModel.numeric_values d.
Proof.
  unfold values, numeric_fields, MockModel.numeric_values.
  induction d as [|[k v] d IH]; simpl; [reflexivity|].
  destruct (isinstance_int_float v); simpl; rewrite IH; reflexivity.
Qed.

Lemma filter_idempotent {A : Type} (p : A -> bool) (l : list A) :
  filter p (filter p l) = filter p l.
Proof.
  induction l as [|x l IH]; simpl; [reflexivity|].
  destruct (p x) eqn:Hp; simpl; rewrite ?Hp, IH; reflexivity.
Qed.

(** X4.  The score of a mapping does not see its other fields: dropping
    every field whose value is not an int, a float or a bool (strings,
    null, lists, nested mappings) leaves the score as it was, and so does
    appending such a field. *)
Theorem score_ignores_other_fields d :
  MockModel.score (PDict (numeric_fields d)) = MockModel.score (PDict d) /\
  (forall k v, isinstance_int_float v = false ->
     MockModel.score (PDict (d ++ [(k, v)])) = MockModel.score (PDict d)).
Proof.
  split.
  - unfold MockModel.score.
    assert (H : MockModel.numeric_values (numeric_fields d)
                = MockModel.numeric_values d).
    { unfold MockModel.numeric_values at 1.
      rewrite values_numeric_fields. unfold MockModel.numeric_values.
      apply filter_idempotent. }
    rewrite H. reflexivity.
  - intros k v Hv. unfold MockModel.score.
    assert (H : MockModel.numeric_values (d ++ [(k, v)])
                = MockModel.numeric_values d).
    { unfold MockModel.numeric_values, values.
      rewrite map_app, filter_app. simpl. rewrite Hv. apply app_nil_r. }
    rewrite H. reflexivity.
Qed.





Lemma numeric_values_Permutation d1 d2 :
  Permutation d1 d2 ->
  Permutation (MockModel.numeric_values d1) (MockModel.numeric_values d2).
Proof.
  unfold MockModel.numeric_values, values.
  induction 1 as [|[k v] l l' _ IH|[k1 v1] [k2 v2] l|l l' l'' _ IH1 _ IH2];
    simpl.
  - constructor.
  - destruct (isinstance_int_float v); [constructor|]; exact IH.
  - destruct (isinstance_int_float v1), (isinstance_int_float v2);
      try apply Permutation_refl. constructor.
  - eapply Permutation_trans; eassumption.
Qed.

Lemma int_total_Permutation l l' :
  Permutation l l' -> int_total l = int_total l'.
Proof.
  induction 1; simpl; lia.
Qed.

Lemma mean_int_like vs :
  Forall (fun v => int_like v = true) vs ->
  mean vs = int_truediv (int_total vs) (Z.of_nat (List.length vs)).
Proof.
  intros H. unfold mean, py_sum. rewrite sum_from_int_like by exact H.
  reflexivity.
Qed.

Lemma score_int_like d :
  Forall (fun v => int_like v = true) (MockModel.numeric_values d) ->
  MockModel.score (PDict d)
  = match MockModel.numeric_values d with
    | [] => Ok f_half
    | _ :: _ =>
        int_truediv (int_total (MockModel.numeric_values d))
                    (Z.of_nat (List.length (MockModel.numeric_values d)))
    end.
Proof.
  intros H. unfold MockModel.score.
  destruct (MockModel.numeric_values d) as [|v vs] eqn:Hnv; [reflexivity|].
  apply (mean_int_like (v :: vs) H).
Qed.

(** X6.  On a mapping whose numeric values are ints and bools the score
    does not depend on the order of the fields: any rearrangement of the
    mapping scores the same (the int total is exact, so the one rounding of
    the division sees the same quotient). *)
Theorem score_field_order d1 d2 :
  Permutation d1 d2 ->
  Forall (fun v => int_like v = true) (MockModel.numeric_values d1) ->
  MockModel.score (PDict d1) = MockModel.score (PDict d2).
Proof.
  intros Hp Hint.
  pose proof (numeric_values_Permutation d1 d2 Hp) as Hnv.
  assert (Hint2 : Forall (fun v => int_like v = true)
                         (MockModel.numeric_values d2)).
  { apply Forall_forall. intros v Hv. rewrite Forall_forall in Hint.
    apply Hint. apply (Permutation_in v (Permutation_sym Hnv) Hv). }
  rewrite (score_int_like d1 Hint), (score_int_like d2 Hint2).
  rewrite (int_total_Permutation _ _ Hnv), (Permutation_length Hnv).
  destruct (MockModel.numeric_values d1) as [|v vs].
  - apply Permutation_nil in Hnv. rewrite Hnv. reflexivity.
  - destruct (MockModel.numeric_values d2) as [|v' vs']; [|reflexivity].
    apply Permutation_sym, Permutation_nil in Hnv. discriminate.
Qed.

Lemma score_field_order_witness :
  MockModel.score (PDict [("a", PInt 1); ("s", PStr "x"); ("b", PBool true)])
  = MockModel.score (PDict [("b", PBool true); ("a", PInt 1); ("s", PStr "x")]).
Proof.
  apply score_field_order.
  - apply Permutation_sym.
    apply (Permutation_cons_app [("a", PInt 1); ("s", PStr "x")] []).
    rewrite app_nil_r. apply Permutation_refl.
  - repeat constructor.
Defined.

Lemma int_total_scaled vs : int_total (map scaled vs) = 10 * int_total vs.
Proof.
  induction vs as [|v vs IH]; [reflexivity|].
  cbn [map int_total]. rewrite IH.
  destruct v as [|b| | | | |]; cbn [scaled as_int]; lia.
Qed.

Lemma int_like_scaled v : int_like (scaled v) = int_like v.
Proof. destruct v; reflexivity. Qed.

Lemma mean_scaled_int_like vs :
  Forall (fun v => int_like v = true) vs ->
  mean (map scaled vs)
  = int_truediv (10 * int_total vs) (Z.of_nat (List.length vs)).
Proof.
  intros Hint. rewrite mean_int_like.
  - rewrite int_total_scaled, length_map. reflexivity.
  - apply Forall_forall. intros x Hx.
    apply in_map_iff in Hx as (y & <- & Hy).
    rewrite int_like_scaled. rewrite Forall_forall in Hint. apply Hint, Hy.
Qed.

(** X7.  Through both stages, a dict whose numeric values are ints and
    bools scores ten times their exact total, divided by their count and
    rounded once: preprocess scales each value by exactly 10 and predict
    divides the exact total. *)
Theorem pipeline_int_record d :
  wf_dict d ->
  MockModel.numeric_values d <> [] ->
  Forall (fun v => int_like v = true) (MockModel.numeric_values d) ->
  item_pipeline (PDict d)
  = int_truediv (10 * int_total (MockModel.numeric_values d))
                (Z.of_nat (List.length (MockModel.numeric_values d))).
Proof.
  intros Hwf Hne Hint. rewrite (item_pipeline_wf d Hwf).
  destruct (MockModel.numeric_values d) as [|v vs] eqn:Hnv; [contradiction|].
  apply mean_scaled_int_like. exact Hint.
Qed.

Lemma pipeline_int_record_witness :
  item_pipeline (PDict [("feature1", PInt 5); ("feature2", PInt 15)])
  = int_truediv 200 2.
Proof.
  apply (pipeline_int_record [("feature1", PInt 5); ("feature2", PInt 15)]).
  - unfold wf_dict. simpl. repeat constructor; simpl; intuition discriminate.
  - discriminate.
  - repeat constructor.
Defined.

(** ** Exact quotients *)

Lemma shr_fexp_noshift m e l :
  fexp prec emax (Zdigits2 m + e) = e ->
  shr_fexp prec emax m e l = (shr_record_of_loc m l, e).
Proof.
  intros H. unfold shr_fexp. rewrite H, Z.sub_diag. reflexivity.
Qed.

(** A mantissa of 53 bits at an exponent in range is left alone. *)
Lemma binary_round_aux_canonical s m e :
  Zdigits2 (Z.pos m) = 53 -> -1074 <= e <= 971 ->
  binary_round_aux prec emax s (Z.pos m) e loc_Exact = S754_finite s m e.
Proof.
  intros Hd He.
  assert (Hf : fexp prec emax (Zdigits2 (Z.pos m) + e) = e)
    by (rewrite fexp64_eq, Hd; lia).
  unfold binary_round_aux.
  rewrite (shr_fexp_noshift (Z.pos m) e loc_Exact Hf).
  cbn [shr_record_of_loc shr_m loc_of_shr_record round_nearest_even].
  rewrite (shr_fexp_noshift (Z.pos m) e loc_Exact Hf).
  cbn [shr_record_of_loc shr_m].
  change (emax - prec) with 971.
  destruct (Z.leb_spec e 971); [reflexivity | lia].
Qed.

(** An even mantissa of 54 bits loses its last bit, exactly. *)
Lemma binary_round_aux_even s m e :
  Zdigits2 (Z.pos m) = 53 -> -1075 <= e <= 970 ->
  binary_round_aux prec emax s (Z.pos m~0) e loc_Exact
  = S754_finite s m (e + 1).
Proof.
  intros Hd He.
  assert (Hd' : Zdigits2 (Z.pos m~0) = 54).
  { simpl in *. lia. }
  assert (Hshift : shr_fexp prec emax (Z.pos m~0) e loc_Exact
                   = ({| shr_m := Z.pos m; shr_r := false; shr_s := false |},
                      e + 1)).
  { unfold shr_fexp.
    replace (fexp prec emax (Zdigits2 (Z.pos m~0) + e) - e) with 1
      by (rewrite fexp64_eq, Hd'; lia).
    reflexivity. }
  assert (Hf : fexp prec emax (Zdigits2 (Z.pos m) + (e + 1)) = e + 1)
    by (rewrite fexp64_eq, Hd; lia).
  unfold binary_round_aux. rewrite Hshift.
  cbn [shr_m loc_of_shr_record round_nearest_even].
  rewrite (shr_fexp_noshift (Z.pos m) (e + 1) loc_Exact Hf).
  cbn [shr_record_of_loc shr_m].
  change (emax - prec) with 971.
  destruct (Z.leb_spec (e + 1) 971); [reflexivity | lia].
Qed.

Lemma dg_mul_pow2 m k : 0 < m -> 0 <= k -> Zdigits2 (m * 2 ^ k) = Zdigits2 m + k.
Proof.
  intros Hm Hk. rewrite <- Z.shiftl_mul_pow2 by lia. apply dg_shiftl; lia.
Qed.

(** The number of bits of a product. *)
Lemma dg_mul a b :
  0 < a -> 0 < b ->
  Zdigits2 a + Zdigits2 b - 1 <= Zdigits2 (a * b) <= Zdigits2 a + Zdigits2 b.
Proof.
  intros Ha Hb.
  assert (0 < a * b) by (apply Z.mul_pos_pos; lia).
  rewrite !dg_log2 by lia.
  pose proof (Z.log2_mul_below a b Ha Hb).
  pose proof (Z.log2_mul_above a b ltac:(lia) ltac:(lia)). lia.
Qed.

Lemma new_location_zero nb : new_location nb 0 = loc_Exact.
Proof. unfold new_location. destruct (Z.even nb); reflexivity. Qed.

(** Dividing a multiple: the quotient the division core hands to the
    rounding is the exact one, shifted left. *)
Lemma SFdiv_core_binary_exact pq pb :
  Zdigits2 (Z.pos pq) <= 53 ->
  exists sh,
    (sh = 53 - Zdigits2 (Z.pos pq) \/ sh = 54 - Zdigits2 (Z.pos pq)) /\
    SFdiv_core_binary prec emax (Z.pos (pq * pb)) 0 (Z.pos pb) 0
    = (Z.pos pq * 2 ^ sh, - sh, loc_Exact).
Proof.
  intros Hdq.
  pose proof (dg_mul (Z.pos pq) (Z.pos pb) ltac:(lia) ltac:(lia)) as Hd.
  pose proof (dg_pos (Z.pos pq) ltac:(lia)) as Hdqpos.
  rewrite <- Pos2Z.inj_mul in Hd.
  set (d1 := Zdigits2 (Z.pos (pq * pb))) in *.
  set (d2 := Zdigits2 (Z.pos pb)) in *.
  exists (53 - (d1 - d2)). split; [lia|].
  unfold SFdiv_core_binary. fold d1 d2.
  replace (Z.min (fexp prec emax (d1 + 0 - (d2 + 0))) (0 - 0))
    with (- (53 - (d1 - d2))) by (rewrite fexp64_eq; lia).
  replace (0 - 0 - - (53 - (d1 - d2))) with (53 - (d1 - d2)) by lia.
  set (sh := 53 - (d1 - d2)).
  assert (Hsh : 0 <= sh) by (unfold sh; lia).
  assert (Hm' : match sh with
                | 0 => Z.pos (pq * pb)
                | Z.pos _ => Z.shiftl (Z.pos (pq * pb)) sh
                | Z.neg _ => 0
                end = Z.pos pq * 2 ^ sh * Z.pos pb).
  { destruct sh as [|k|k] eqn:Hk; try lia.
    rewrite Z.shiftl_mul_pow2 by lia. lia. }
  rewrite Hm'.
  pose proof (Z.div_mul (Z.pos pq * 2 ^ sh) (Z.pos pb) ltac:(lia)) as Hdiv.
  pose proof (Z.mod_mul (Z.pos pq * 2 ^ sh) (Z.pos pb) ltac:(lia)) as Hmod.
  unfold Z.div, Z.modulo in Hdiv, Hmod.
  destruct (Z.div_eucl (Z.pos pq * 2 ^ sh * Z.pos pb) (Z.pos pb)) as [q r].
  simpl in Hdiv, Hmod. subst q r.
  rewrite new_location_zero. reflexivity.
Qed.

(** [a / b] on ints is exact when [b] divides [a] and the quotient has at
    most 53 bits. *)
Lemma int_truediv_exact q b :
  0 < b -> q <> 0 -> Z.abs q < 2 ^ 53 ->
  int_truediv (q * b) b
  = Ok (S754_finite (q <? 0)
                    (Z.to_pos (Z.abs q * 2 ^ (53 - Zdigits2 q)))
                    (Zdigits2 q - 53)).
Proof.
  intros Hb Hq Hlt.
  assert (Hdq : Zdigits2 q <= 53) by (apply dg_bound; lia).
  unfold int_truediv.
  destruct (Z.eqb_spec b 0) as [|_]; [lia|].
  destruct (Z.eqb_spec (q * b) 0) as [H0|_]; [nia|].
  assert (Hgoal : forall s pq pb,
            Zdigits2 (Z.pos pq) <= 53 ->
            SFdiv prec emax (S754_finite s (pq * pb) 0) (S754_finite false pb 0)
            = S754_finite s
                (Z.to_pos (Z.pos pq * 2 ^ (53 - Zdigits2 (Z.pos pq))))
                (Zdigits2 (Z.pos pq) - 53)).
  { intros s pq pb Hd. unfold SFdiv.
    destruct (SFdiv_core_binary_exact pq pb Hd) as (sh & Hsh & ->).
    rewrite xorb_false_r.
    pose proof (dg_pos (Z.pos pq) ltac:(lia)) as Hpos.
    set (dq := Zdigits2 (Z.pos pq)) in *.
    assert (Hp2 : 0 < 2 ^ (53 - dq)) by (apply Z.pow_pos_nonneg; lia).
    assert (HM0 : 0 < Z.pos pq * 2 ^ (53 - dq)) by (apply Z.mul_pos_pos; lia).
    assert (HdM0 : Zdigits2 (Z.pos pq * 2 ^ (53 - dq)) = 53).
    { rewrite dg_mul_pow2 by lia. fold dq. lia. }
    destruct (Z.pos pq * 2 ^ (53 - dq)) as [|m0|m0] eqn:HM0eq; try lia.
    simpl Z.to_pos.
    destruct Hsh as [-> | ->].
    - rewrite HM0eq.
      replace (- (53 - dq)) with (dq - 53) by lia.
      apply binary_round_aux_canonical; [exact HdM0 | lia].
    - replace (Z.pos pq * 2 ^ (54 - dq)) with (Z.pos m0~0).
      + replace (dq - 53) with (- (54 - dq) + 1) by lia.
        apply binary_round_aux_even; [exact HdM0 | lia].
      + rewrite Pos2Z.inj_xO, <- HM0eq.
        replace (54 - dq) with (1 + (53 - dq)) by lia.
        rewrite Z.pow_add_r by lia. rewrite Z.pow_1_r. lia. }
  destruct b as [|pb|pb]; try lia.
  destruct q as [|pq|pq]; try lia;
    [change (Z.pos pq * Z.pos pb) with (Z.pos (pq * pb))
    |change (Z.neg pq * Z.pos pb) with (Z.neg (pq * pb))];
    unfold f_div; cbn [f_exact];
    rewrite (Hgoal _ pq pb Hdq); reflexivity.
Qed.

Lemma represents_exact q :
  q <> 0 -> Z.abs q < 2 ^ 53 ->
  represents
    (S754_finite (q <? 0)
                 (Z.to_pos (Z.abs q * 2 ^ (53 - Zdigits2 q)))
                 (Zdigits2 q - 53)) q.
Proof.
  intros Hq Hlt.
  assert (Hdq : Zdigits2 q <= 53) by (apply dg_bound; lia).
  assert (Hp2 : 0 < 2 ^ (53 - Zdigits2 q)) by (apply Z.pow_pos_nonneg; lia).
  unfold represents. split; [reflexivity|]. split; [lia|].
  rewrite Z2Pos.id by (apply Z.mul_pos_pos; lia).
  replace (- (Zdigits2 q - 53)) with (53 - Zdigits2 q) by lia. reflexivity.
Qed.

Lemma int_truediv_represents t n q :
  0 < n -> t = q * n -> Z.abs q < 2 ^ 53 ->
  exists f, int_truediv t n = Ok f /\ represents f q.
Proof.
  intros Hn -> Hlt.
  destruct (Z.eq_dec q 0) as [->|Hq].
  - unfold int_truediv. simpl Z.mul.
    destruct (Z.eqb_spec n 0) as [|_]; [lia|]. simpl.
    eexists. split; [reflexivity | reflexivity].
  - rewrite (int_truediv_exact q n Hn Hq Hlt).
    eexists. split; [reflexivity | apply represents_exact; assumption].
Qed.

(** X8.  When the numeric values of a mapping are ints and bools whose
    mean is an integer of at most 53 bits, the score is exactly that
    integer: the division rounds nothing away. *)
Theorem score_exact_mean d q :
  MockModel.numeric_values d <> [] ->
  Forall (fun v => int_like v = true) (MockModel.numeric_values d) ->
  int_total (MockModel.numeric_values d)
  = q * Z.of_nat (List.length (MockModel.numeric_values d)) ->
  Z.abs q < 2 ^ 53 ->
  exists f, MockModel.score (PDict d) = Ok f /\ represents f q.
Proof.
  intros Hne Hint Htotal Hlt.
  rewrite (score_int_like d Hint).
  destruct (MockModel.numeric_values d) as [|v vs] eqn:Hnv; [contradiction|].
  apply int_truediv_represents; [apply (length_pos_Z v vs) | exact Htotal|exact Hlt].
Qed.

Lemma score_exact_mean_witness :
  exists f, MockModel.score (PDict example_processed) = Ok f /\ represents f 150.
Proof.
  apply (score_exact_mean example_processed 150).
  - discriminate.
  - repeat constructor.
  - reflexivity.
  - vm_compute. reflexivity.
Defined.

(** X9.  Through both stages, a dict whose numeric values are ints and
    bools with an integer mean [q], [10 * q] of at most 53 bits, scores
    exactly [10 * q]. *)
Theorem pipeline_exact_mean d q :
  wf_dict d ->
  MockModel.numeric_values d <> [] ->
  Forall (fun v => int_like v = true) (MockModel.numeric_values d) ->
  int_total (MockModel.numeric_values d)
  = q * Z.of_nat (List.length (MockModel.numeric_values d)) ->
  Z.abs (10 * q) < 2 ^ 53 ->
  exists f, item_pipeline (PDict d) = Ok f /\ represents f (10 * q).
Proof.
  intros Hwf Hne Hint Htotal Hlt.
  rewrite (item_pipeline_wf d Hwf).
  destruct (MockModel.numeric_values d) as [|v vs] eqn:Hnv; [contradiction|].
  rewrite (mean_scaled_int_like (v :: vs) Hint).
  apply int_truediv_represents;
    [apply (length_pos_Z v vs) | rewrite Htotal; lia | exact Hlt].
Qed.

Lemma pipeline_exact_mean_witness :
  exists f, item_pipeline (PDict example_record) = Ok f /\ represents f 150.
Proof.
  apply (pipeline_exact_mean example_record 15).
  - unfold wf_dict. simpl. repeat constructor; simpl; intuition discriminate.
  - discriminate.
  - repeat constructor.
  - reflexivity.
  - vm_compute. reflexivity.
Defined.

(** ** The predict route *)










(** ** authenticate_admin and startup *)

(** X12.  [authenticate_admin] returns [True] for the token equal to the
    secret and raises the 401 with its Bearer challenge for every other
    token, the absent and the empty one included; it never returns
    [False].  The [not token] test adds nothing to the comparison with the
    secret. *)
Theorem authenticate_admin_decides token :
  (token = Some FAKE_ADMIN_TOKEN -> authenticate_admin token = Returned true) /\
  (token <> Some FAKE_ADMIN_TOKEN ->
   authenticate_admin token = Failed unauthorized) /\
  authenticate_admin token <> Returned false /\
  authenticate_admin token
  = (if token_ne token FAKE_ADMIN_TOKEN then Failed unauthorized
     else Returned true).
Proof.
  split; [apply authenticate_admin_accepts|].
  split; [apply authenticate_admin_rejects|].
  assert (Heq : authenticate_admin token
                = if token_ne token FAKE_ADMIN_TOKEN then Failed unauthorized
                  else Returned true).
  { unfold authenticate_admin. destruct token as [s|]; [|reflexivity].
    simpl. destruct (String.eqb_spec s FAKE_ADMIN_TOKEN) as [->|_].
    - reflexivity.
    - rewrite orb_true_r. reflexivity. }
  split; [|exact Heq].
  rewrite Heq. destruct (token_ne token FAKE_ADMIN_TOKEN); discriminate.
Qed.

(** X13.  Startup leaves the feature enabled exactly when it was configured
    on and both constructors returned, and then both globals hold the
    objects built; when the model's constructor raises, the preprocessor is
    never built; and a model is never held without the feature having been
    configured on. *)
Theorem startup_state configured new_model new_preprocessor :
  let st := initialize configured new_model new_preprocessor in
  (AI_ENABLED st = true <->
   configured = true /\ new_model <> None /\ new_preprocessor <> None) /\
  (AI_ENABLED st = true ->
   ml_model st = new_model /\ preprocessor st = new_preprocessor) /\
  (new_model = None -> preprocessor st = None) /\
  (ml_model st <> None -> configured = true).
Proof.
  destruct configured, new_model as [m|], new_preprocessor as [p|]; simpl;
    repeat split; try discriminate; try congruence;
    try (intros (H1 & H2 & H3); congruence).
Qed.

(** ** The health reporter's timestamp *)

Lemma string_app_inj (a a' b b' : string) :
  String.length a = String.length a' ->
  (a ++ b)%string = (a' ++ b')%string -> a = a' /\ b = b'.
Proof.
  revert a'. induction a as [|c a IH]; intros [|c' a'] Hlen H;
    try discriminate.
  - split; [reflexivity | exact H].
  - simpl in H. injection H as -> H. injection Hlen as Hlen.
    destruct (IH a' Hlen H) as [-> ->]. split; reflexivity.
Qed.

Lemma fmt_d_below (w : nat) (bound : nat) :
  forallb (fun k => (Nat.eqb (String.length (fmt_d w (N.of_nat k))) w
                     && N.eqb (N_of_str (fmt_d w (N.of_nat k))) (N.of_nat k))%bool)
          (seq 0 bound) = true ->
  forall n, (n < N.of_nat bound)%N ->
    String.length (fmt_d w n) = w /\ N_of_str (fmt_d w n) = n.
Proof.
  intros Hall n Hn. rewrite forallb_forall in Hall.
  specialize (Hall (N.to_nat n)).
  rewrite N2Nat.id in Hall.
  assert (Hin : In (N.to_nat n) (seq 0 bound)) by (apply in_seq; lia).
  apply Hall in Hin. apply andb_true_iff in Hin as [H1 H2].
  split; [apply Nat.eqb_eq; exact H1 | apply N.eqb_eq; exact H2].
Qed.

(** ["%04d"] of a number below 10000 has four characters and reads back. *)
Lemma fmt_d_4 n :
  (n < 10000)%N ->
  String.length (fmt_d 4 n) = 4%nat /\ N_of_str (fmt_d 4 n) = n.
Proof.
  apply (fmt_d_below 4 10000). vm_compute. reflexivity.
Qed.

(** ["%02d"] of a number below 100 has two characters and reads back. *)
Lemma fmt_d_2 n :
  (n < 100)%N ->
  String.length (fmt_d 2 n) = 2%nat /\ N_of_str (fmt_d 2 n) = n.
Proof.
  apply (fmt_d_below 2 100). vm_compute. reflexivity.
Qed.

Lemma fmt_d_inj w n n' :
  N_of_str (fmt_d w n) = n -> N_of_str (fmt_d w n') = n' ->
  fmt_d w n = fmt_d w n' -> n = n'.
Proof. intros H1 H2 H. rewrite <- H1, <- H2, H. reflexivity. Qed.

Lemma iso_date_time_inj c1 c2 :
  in_range c1 -> in_range c2 ->
  iso_date_time c1 = iso_date_time c2 -> same_second c1 c2.
Proof.
  intros (Hy1 & Hmo1 & Hd1 & Hh1 & Hmi1 & Hs1)
         (Hy2 & Hmo2 & Hd2 & Hh2 & Hmi2 & Hs2) H.
  destruct (fmt_d_4 _ Hy1) as [Ly1 Ry1]. destruct (fmt_d_4 _ Hy2) as [Ly2 Ry2].
  destruct (fmt_d_2 _ Hmo1) as [Lmo1 Rmo1]. destruct (fmt_d_2 _ Hmo2) as [Lmo2 Rmo2].
  destruct (fmt_d_2 _ Hd1) as [Ld1 Rd1]. destruct (fmt_d_2 _ Hd2) as [Ld2 Rd2].
  destruct (fmt_d_2 _ Hh1) as [Lh1 Rh1]. destruct (fmt_d_2 _ Hh2) as [Lh2 Rh2].
  destruct (fmt_d_2 _ Hmi1) as [Lmi1 Rmi1]. destruct (fmt_d_2 _ Hmi2) as [Lmi2 Rmi2].
  destruct (fmt_d_2 _ Hs1) as [_ Rs1]. destruct (fmt_d_2 _ Hs2) as [_ Rs2].
  unfold iso_date_time in H.
  apply string_app_inj in H as [Ey H]; [|congruence].
  simpl in H. injection H as H.
  apply string_app_inj in H as [Emo H]; [|congruence].
  simpl in H. injection H as H.
  apply string_app_inj in H as [Ed H]; [|congruence].
  simpl in H. injection H as H.
  apply string_app_inj in H as [Eh H]; [|congruence].
  simpl in H. injection H as H.
  apply string_app_inj in H as [Emi H]; [|congruence].
  simpl in H. injection H as Es.
  unfold same_second.
  repeat split; eapply fmt_d_inj; eassumption.
Qed.

Lemma iso_date_time_length c :
  in_range c -> String.length (iso_date_time c) = 19%nat.
Proof.
  intros (Hy & Hmo & Hd & Hh & Hmi & Hs).
  assert (Happ : forall a b, String.length (a ++ b)
                             = (String.length a + String.length b)%nat).
  { induction a as [|x a IH]; intros b; simpl; [|rewrite IH]; reflexivity. }
  unfold iso_date_time. rewrite !Happ.
  rewrite (proj1 (fmt_d_4 _ Hy)), (proj1 (fmt_d_2 _ Hmo)),
    (proj1 (fmt_d_2 _ Hd)), (proj1 (fmt_d_2 _ Hh)), (proj1 (fmt_d_2 _ Hmi)),
    (proj1 (fmt_d_2 _ Hs)).
  reflexivity.
Qed.

Lemma health_timestamp_eq clock :
  health_check clock
  = Returned {| hc_status := "healthy";
                hc_timestamp := (iso_date_time clock ++ "+00:00Z")%string;
                hc_service := PROJECT_NAME |}.
Proof.
  unfold health_check, isoformat_seconds. simpl tzinfo.
  change (iso_date_time (datetime_now clock timezone_utc))
    with (iso_date_time clock).
  change (format_offset timezone_utc) with "+00:00".
  rewrite string_app_assoc. reflexivity.
Qed.

(** X15.  For clock readings within a datetime's ranges, GET /health gives
    the same answer at two readings exactly when they agree down to the
    second: microseconds are dropped, and every field from the year to the
    second can be told from the timestamp, which always has 26
    characters. *)
Theorem health_check_same_second c1 c2 :
  in_range c1 -> in_range c2 ->
  (health_check c1 = health_check c2 <-> same_second c1 c2) /\
  (forall body, health_check c1 = Returned body ->
                String.length (hc_timestamp body) = 26%nat).
Proof.
  intros H1 H2. rewrite !health_timestamp_eq. split; [split|].
  - intros H. injection H as H.
    apply string_app_inj in H as [H _].
    + apply iso_date_time_inj; assumption.
    + rewrite !iso_date_time_length by assumption. reflexivity.
  - intros (Ey & Emo & Ed & Eh & Emi & Es).
    unfold iso_date_time. rewrite Ey, Emo, Ed, Eh, Emi, Es. reflexivity.
  - intros body [= <-]. simpl hc_timestamp.
    pose proof (iso_date_time_length c1 H1) as Hlen.
    assert (Happ : forall a b, String.length (a ++ b)
                               = (String.length a + String.length b)%nat).
    { induction a as [|x a IH]; intros b; simpl; [|rewrite IH]; reflexivity. }
    rewrite Happ, Hlen. reflexivity.
Qed.

Lemma health_check_same_second_witness :
  health_check example_clock
  = health_check {| year := 2023; month := 10; day := 27;
                    hour := 10; minute := 0; second := 0;
                    microsecond := 999999; tzinfo := None |}.
Proof.
  apply (health_check_same_second example_clock
           {| year := 2023; month := 10; day := 27;
              hour := 10; minute := 0; second := 0;
              microsecond := 999999; tzinfo := None |}).
  - vm_compute. repeat split.
  - vm_compute. repeat split.
  - vm_compute. repeat split.
Defined.

(** ** Floats *)

(** X16.  Floats never make predict raise: a mapping of fewer than 2^64
    fields none of whose values is an int always gets a score, whatever
    the size of its floats.  The score need not be finite: two fields
    holding the largest finite float score infinity. *)
Theorem score_floats_never_raise d :
  Z.of_nat (List.length d) < 2 ^ 64 ->
  Forall (fun v => forall z, v <> PInt z) (values d) ->
  (exists q, MockModel.score (PDict d) = Ok q) /\
  MockModel.score (PDict [("a", PFloat f_max); ("b", PFloat f_max)])
  = Ok (S754_infinity false).
Proof.
  intros Hlen Hno. split; [|vm_compute; reflexivity].
  apply score_small_ints. split; [exact Hlen|].
  eapply Forall_impl; [|exact Hno].
  intros v Hv z Hz. exfalso. apply (Hv z Hz).
Qed.

Lemma score_floats_never_raise_witness :
  exists q,
    MockModel.score (PDict [("x", PFloat f_max); ("ok", PBool true)]) = Ok q.
Proof.
  apply (score_floats_never_raise [("x", PFloat f_max); ("ok", PBool true)]).
  - vm_compute. reflexivity.
  - repeat constructor; intros z; discriminate.
Defined.
